(** * Hyperstream SDK: the request/response dispatch pipeline

    A shallow embedding of [fetch.ts] (class [Fetch]), [errors.ts]
    (class [HyperstreamApiError]) and [client.ts] (class
    [HyperstreamClient]): header merging and URL construction, error
    normalisation for transport failures and non-2xx responses, the lookup
    and submission facades, and the cursor-driven [searchTokens] generator.

    TypeScript types are erased at run time, so values that arrive from the
    network are modelled as untyped JavaScript values ([JsVal]); strings are
    the UTF-8 bytes of well-formed JavaScript strings, and numbers are the
    integers that JSON carries exactly. *)

From Stdlib Require Import ZArith List String Ascii Bool Lia DecimalString.
Import ListNotations.

Local Open Scope string_scope.
Local Open Scope Z_scope.

(** ** JavaScript values *)

#[warnings="-register-all"]
Inductive JsVal : Type :=
| JUndefined
| JNull
| JBool (b : bool)
| JNum (n : Z)
| JStr (s : string)
| JArr (items : list JsVal)
| JObj (props : list (string * JsVal)).

(** Own properties of a plain object, in insertion order. *)
Definition Props (A : Type) : Type := list (string * A).

Fixpoint obj_get {A : Type} (props : Props A) (key : string) : option A :=
  match props with
  | [] => None
  | (k, v) :: rest => if String.eqb k key then Some v else obj_get rest key
  end.

(** Assignment [o[key] = v]: an existing key keeps its position. *)
Fixpoint obj_set {A : Type} (props : Props A) (key : string) (v : A) : Props A :=
  match props with
  | [] => [(key, v)]
  | (k, x) :: rest =>
      if String.eqb k key then (k, v) :: rest else (k, x) :: obj_set rest key v
  end.

(** Object spread [{ ...a, ...b }]. *)
Definition obj_spread {A : Type} (a b : Props A) : Props A :=
  fold_left (fun acc kv => obj_set acc (fst kv) (snd kv)) b a.

(** [v?.key]: [undefined] on a nullish receiver; primitives and arrays have
    none of the property names this program reads. *)
Definition js_get (v : JsVal) (key : string) : JsVal :=
  match v with
  | JObj props =>
      match obj_get props key with
      | Some x => x
      | None => JUndefined
      end
  | _ => JUndefined
  end.

Definition is_nullish (v : JsVal) : bool :=
  match v with
  | JUndefined | JNull => true
  | _ => false
  end.

(** ToBoolean. *)
Definition truthy (v : JsVal) : bool :=
  match v with
  | JUndefined | JNull => false
  | JBool b => b
  | JNum n => negb (n =? 0)
  | JStr s => negb (String.eqb s "")
  | JArr _ | JObj _ => true
  end.

(** [a || b] and [a ?? b]. *)
Definition js_or (a b : JsVal) : JsVal := if truthy a then a else b.
Definition js_coalesce (a b : JsVal) : JsVal := if is_nullish a then b else a.

(** [a === b] against a string literal. *)
Definition strict_eq_str (v : JsVal) (lit : string) : bool :=
  match v with
  | JStr s => String.eqb s lit
  | _ => false
  end.

Definition number_to_string (n : Z) : string :=
  NilZero.string_of_int (Z.to_int n).

Fixpoint join (sep : string) (parts : list string) : string :=
  match parts with
  | [] => ""
  | [p] => p
  | p :: rest => p ++ sep ++ join sep rest
  end.

(** ToString, as applied by [String(v)], template literals and the [Error]
    constructor. *)
Fixpoint js_to_string (v : JsVal) : string :=
  match v with
  | JUndefined => "undefined"
  | JNull => "null"
  | JBool true => "true"
  | JBool false => "false"
  | JNum n => number_to_string n
  | JStr s => s
  | JArr items =>
      join ","
        (map (fun x => match x with
                       | JUndefined | JNull => ""
                       | _ => js_to_string x
                       end) items)
  | JObj _ => "[object Object]"
  end.

(** [JSON.stringify] up to the text layout: the value the produced text
    denotes, or [None] where [JSON.stringify] returns [undefined]. *)
Fixpoint json_value (v : JsVal) : JsVal :=
  match v with
  | JUndefined => JNull
  | JArr items => JArr (map json_value items)
  | JObj props =>
      JObj ((fix own (ps : list (string * JsVal)) : list (string * JsVal) :=
               match ps with
               | [] => []
               | (k, JUndefined) :: rest => own rest
               | (k, x) :: rest => (k, json_value x) :: own rest
               end) props)
  | _ => v
  end.

Definition JSON_stringify (v : JsVal) : option JsVal :=
  match v with
  | JUndefined => None
  | _ => Some (json_value v)
  end.

(** ** Strings: prefixes, suffixes and percent-encoding *)

Definition slash : ascii := "/"%char.

Definition startsWith (s pre : string) : bool := String.prefix pre s.

(** [s.replace(/\/+$/, "")]: the regular expression matches the maximal run
    of slashes that reaches the end of the input. *)
Fixpoint strip_trailing_slashes (s : string) : string :=
  match s with
  | EmptyString => EmptyString
  | String c rest =>
      match strip_trailing_slashes rest with
      | EmptyString => if Ascii.eqb c slash then EmptyString else String c EmptyString
      | kept => String c kept
      end
  end.

Definition in_range (lo hi c : ascii) : bool :=
  (nat_of_ascii lo <=? nat_of_ascii c)%nat && (nat_of_ascii c <=? nat_of_ascii hi)%nat.

Definition is_digit (c : ascii) : bool := in_range "0" "9" c.
Definition is_alpha (c : ascii) : bool := in_range "a" "z" c || in_range "A" "Z" c.
Definition is_hex_digit (c : ascii) : bool :=
  is_digit c || in_range "a" "f" c || in_range "A" "F" c.

Definition mem_ascii (c : ascii) (set : string) : bool :=
  existsb (Ascii.eqb c) (list_ascii_of_string set).

Definition hex_char (n : nat) : ascii :=
  match String.get n "0123456789ABCDEF" with
  | Some c => c
  | None => "0"%char
  end.

Definition percent_byte (c : ascii) : string :=
  let n := nat_of_ascii c in
  String "%" (String (hex_char (n / 16)) (String (hex_char (n mod 16)) EmptyString)).

Fixpoint encode_bytes (keep : ascii -> bool) (sub : ascii -> option string)
    (s : string) : string :=
  match s with
  | EmptyString => EmptyString
  | String c rest =>
      (if keep c then String c EmptyString
       else match sub c with
            | Some r => r
            | None => percent_byte c
            end) ++ encode_bytes keep sub rest
  end.

(** [encodeURIComponent]: every byte outside the unreserved set is escaped. *)
Definition encodeURIComponent (s : string) : string :=
  encode_bytes (fun c => is_alpha c || is_digit c || mem_ascii c "-_.!~*'()")
               (fun _ => None) s.

(** The application/x-www-form-urlencoded byte serializer used by
    [URLSearchParams.prototype.toString]. *)
Definition form_urlencode (s : string) : string :=
  encode_bytes (fun c => is_alpha c || is_digit c || mem_ascii c "*-._")
               (fun c => if Ascii.eqb c " " then Some "+" else None) s.

(** ** errors.ts *)

(** A thrown value that is not a [HyperstreamApiError]: an [Error] instance
    (a [TypeError] from the network stack, say) or any other value. *)
Inductive Failure : Type :=
| FailError (name message : string)
| FailValue (v : JsVal).

(** The [details] field: a decoded value, or the object [{ error }] that
    wraps a caught failure. *)
Inductive Details : Type :=
| DetailsValue (v : JsVal)
| DetailsError (error : Failure).

Record HyperstreamApiError : Type := mkApiError {
  err_message : string;
  err_status : Z;
  err_code : JsVal;
  err_details : Details;
  err_requestId : option string;
  err_causeResponseBody : JsVal
}.

Inductive Thrown : Type :=
| ThrowApi (e : HyperstreamApiError)
| ThrowOther (f : Failure).

(** [new HyperstreamApiError(params)]; [super(message)] applies ToString to a
    defined message, and [requestId ?? null] is [None] for both nullish
    values. *)
Definition new_HyperstreamApiError (message : JsVal) (status : Z) (code : JsVal)
    (details : Details) (requestId : option string) (causeResponseBody : JsVal)
    : HyperstreamApiError :=
  {| err_message := match message with
                    | JUndefined => ""
                    | m => js_to_string m
                    end;
     err_status := status;
     err_code := code;
     err_details := details;
     err_requestId := requestId;
     err_causeResponseBody := causeResponseBody |}.

(** ** The platform: responses, request options and the injected fetch *)

Record Response : Type := mkResponse {
  resp_status : Z;
  resp_statusText : string;
  resp_headers : Props string;    (* names in lower case, as [Headers] keeps them *)
  resp_json : option JsVal        (* what [json()] resolves to; [None]: it rejects *)
}.

(** [Response.prototype.ok]: the status is in the range 200-299. *)
Definition resp_ok (r : Response) : bool :=
  (200 <=? resp_status r) && (resp_status r <=? 299).

Record RequestInit : Type := mkInit {
  method : option string;
  init_headers : option (Props string);
  body : option JsVal             (* the value whose JSON text is sent *)
}.

Definition or_empty {A : Type} (o : option (Props A)) : Props A :=
  match o with
  | Some h => h
  | None => []
  end.

Inductive FetchOutcome : Type :=
| Resolve (r : Response)
| Reject (t : Thrown).

Record MockCall : Type := mkCall {
  input : string;
  init : RequestInit
}.

(** The injected [FetchLike] is the environment: its k-th invocation is
    answered by the k-th scripted outcome, and every invocation is recorded.
    Once the script is used up an invocation fails with an [Error], as the
    mock of the test suite does. *)
Record World : Type := mkWorld {
  responses : list FetchOutcome;
  calls : list MockCall
}.

(** Computations that await: they read and update the environment and either
    return or throw. *)
Definition M (A : Type) : Type := World -> (Thrown + A) * World.

Definition ret {A : Type} (a : A) : M A := fun w => (inr a, w).
Definition throw {A : Type} (t : Thrown) : M A := fun w => (inl t, w).

Definition bind {A B : Type} (m : M A) (k : A -> M B) : M B :=
  fun w =>
    match m w with
    | (inr a, w') => k a w'
    | (inl t, w') => (inl t, w')
    end.

Definition try_catch {A : Type} (m : M A) (handler : Thrown -> M A) : M A :=
  fun w =>
    match m w with
    | (inl t, w') => handler t w'
    | r => r
    end.

Definition lift {A : Type} (r : Thrown + A) : M A := fun w => (r, w).

Declare Scope js_scope.
Delimit Scope js_scope with js.
Notation "x <- m ;; k" := (bind m (fun x => k))
  (at level 61, m at next level, right associativity) : js_scope.
Local Open Scope js_scope.

Definition fetchImpl (url : string) (options : RequestInit) : M Response :=
  fun w =>
    let logged := (calls w ++ [mkCall url options])%list in
    match responses w with
    | [] =>
        (inl (ThrowOther (FailError "Error" "No mock response left for fetch call")),
         mkWorld [] logged)
    | Resolve r :: rest => (inr r, mkWorld rest logged)
    | Reject t :: rest => (inl t, mkWorld rest logged)
    end.

(** ** fetch.ts: class Fetch *)

Record FetchJSONResult : Type := mkResult {
  res_status : Z;
  res_data : JsVal;
  res_ok : bool;
  res_raw : option Response
}.

Definition RequestInterceptor : Type :=
  string * RequestInit -> Thrown + (string * RequestInit).
Definition ResponseInterceptor : Type := Response -> Thrown + Response.

Record Fetch : Type := mkFetch {
  baseURL : option string;
  headers : Props string;
  requestInterceptors : list RequestInterceptor;
  responseInterceptors : list ResponseInterceptor
}.

Record FetchConfig : Type := mkFetchConfig {
  fc_baseURL : option string;
  fc_headers : option (Props string)
}.

Definition Fetch_constructor (config : FetchConfig) : Fetch :=
  {| baseURL := fc_baseURL config;
     headers := or_empty (fc_headers config);
     requestInterceptors := [];
     responseInterceptors := [] |}.

Definition addRequestInterceptor (self : Fetch) (i : RequestInterceptor) : Fetch :=
  {| baseURL := baseURL self;
     headers := headers self;
     requestInterceptors := (requestInterceptors self ++ [i])%list;
     responseInterceptors := responseInterceptors self |}.

Definition addResponseInterceptor (self : Fetch) (i : ResponseInterceptor) : Fetch :=
  {| baseURL := baseURL self;
     headers := headers self;
     requestInterceptors := requestInterceptors self;
     responseInterceptors := (responseInterceptors self ++ [i])%list |}.

(** [for (const interceptor of list) x = await interceptor(x)]. *)
Fixpoint run_interceptors {A : Type} (list : list (A -> Thrown + A)) (x : A) : M A :=
  match list with
  | [] => ret x
  | interceptor :: rest => y <- lift (interceptor x) ;; run_interceptors rest y
  end.

(** The two values [request] computes before anything is awaited. *)
Definition fullUrl_of (self : Fetch) (url : string) : string :=
  match baseURL self with
  | Some b => if String.eqb b "" then url else b ++ url
  | None => url
  end.

Definition finalInit_of (self : Fetch) (options : RequestInit) : RequestInit :=
  {| method := method options;
     init_headers :=
       Some (obj_spread (obj_spread [] (headers self))
                        (or_empty (init_headers options)));
     body := body options |}.

(** The result [request] returns: [json()] on a clone, [undefined] when it
    rejects. *)
Definition decode (response : Response) : FetchJSONResult :=
  {| res_status := resp_status response;
     res_data := match resp_json response with
                 | Some v => v
                 | None => JUndefined
                 end;
     res_ok := resp_ok response;
     res_raw := Some response |}.

Definition request (self : Fetch) (url : string) (options : RequestInit)
    : M FetchJSONResult :=
  sent <- run_interceptors (requestInterceptors self)
            (fullUrl_of self url, finalInit_of self options) ;;
  response <- fetchImpl (fst sent) (snd sent) ;;
  response <- run_interceptors (responseInterceptors self) response ;;
  ret (decode response).

Definition no_init : RequestInit :=
  {| method := None; init_headers := None; body := None |}.

Definition get (self : Fetch) (url : string) (options : option RequestInit)
    : M FetchJSONResult :=
  let o := match options with Some o => o | None => no_init end in
  request self url
    {| method := Some "GET"; init_headers := init_headers o; body := body o |}.

Definition post (self : Fetch) (url : string) (payload : JsVal)
    (options : option RequestInit) : M FetchJSONResult :=
  let o := match options with Some o => o | None => no_init end in
  request self url
    {| method := Some "POST";
       init_headers :=
         Some (obj_spread [("Content-Type", "application/json")]
                          (or_empty (init_headers o)));
       body := JSON_stringify payload |}.

(** ** client.ts: class HyperstreamClient *)

Record HyperstreamClientConfig : Type := mkConfig {
  baseUrl : string;
  config_headers : option (Props string);
  userAgent : option string
}.

Record ClientRequestConfig : Type := mkRequestConfig {
  rc_path : string;
  rc_method : option string;
  rc_body : JsVal;
  rc_query : option (Props JsVal);
  rc_headers : option (Props string)
}.

(** [/^0x[0-9a-fA-F]+$/.test(value)]. *)
Definition isHexLike (value : string) : bool :=
  match value with
  | String c0 (String c1 digits) =>
      Ascii.eqb c0 "0" && Ascii.eqb c1 "x"
      && negb (String.eqb digits "")
      && forallb is_hex_digit (list_ascii_of_string digits)
  | _ => false
  end.

(** The constructor throws on a falsy [baseUrl]; a client is the [Fetch]
    state it inherits (the transport proxy holds no state of its own).  The
    injected fetch is the environment, so the check of [Fetch] for a missing
    fetch implementation never fires. *)
Definition HyperstreamClient_constructor (config : HyperstreamClientConfig)
    : Thrown + Fetch :=
  if String.eqb (baseUrl config) "" then
    inl (ThrowOther (FailError "Error" "HyperstreamClient: `baseUrl` is required."))
  else
    let stripped := strip_trailing_slashes (baseUrl config) in
    let normalizedBase :=
      if String.eqb stripped "" then baseUrl config else stripped in
    let headers := obj_spread [] (or_empty (config_headers config)) in
    let headers :=
      match userAgent config with
      | Some ua => if String.eqb ua "" then headers else obj_set headers "User-Agent" ua
      | None => headers
      end in
    inr (Fetch_constructor
           {| fc_baseURL := Some normalizedBase; fc_headers := Some headers |}).

Definition normalizeTransportError (error : Thrown) : HyperstreamApiError :=
  match error with
  | ThrowApi e => e
  | ThrowOther f =>
      let message :=
        match f with
        | FailError _ m => m
        | FailValue _ => "Hyperstream transport request failed"
        end in
      new_HyperstreamApiError (JStr message) 0 (JStr "TransportError")
        (DetailsError f) None JUndefined
  end.

(** [createTransportProxy]: [get] and [post] of [Fetch], each wrapped in the
    same [try]/[catch]. *)
Definition transport_get (self : Fetch) (url : string) (options : option RequestInit)
    : M FetchJSONResult :=
  try_catch (get self url options)
            (fun error => throw (ThrowApi (normalizeTransportError error))).

Definition transport_post (self : Fetch) (url : string) (payload : JsVal)
    (options : option RequestInit) : M FetchJSONResult :=
  try_catch (post self url payload options)
            (fun error => throw (ThrowApi (normalizeTransportError error))).

(** [URLSearchParams]: [set] and [toString]. *)
Fixpoint params_set (params : Props string) (name value : string) : Props string :=
  match params with
  | [] => [(name, value)]
  | (k, x) :: rest =>
      if String.eqb k name
      then (k, value) :: filter (fun kv => negb (String.eqb (fst kv) name)) rest
      else (k, x) :: params_set rest name value
  end.

Definition params_toString (params : Props string) : string :=
  join "&" (map (fun kv => form_urlencode (fst kv) ++ "=" ++ form_urlencode (snd kv))
                params).

Definition buildPathWithQuery (path : string) (query : option (Props JsVal)) : string :=
  let normalizedPath := if startsWith path "/" then path else "/" ++ path in
  match query with
  | None => normalizedPath
  | Some entries =>
      let params :=
        fold_left (fun params kv =>
                     if is_nullish (snd kv) then params
                     else params_set params (fst kv) (js_to_string (snd kv)))
                  entries [] in
      let queryString := params_toString params in
      if String.eqb queryString "" then normalizedPath
      else normalizedPath ++ "?" ++ queryString
  end.

Definition raw_statusText (result : FetchJSONResult) : JsVal :=
  match res_raw result with
  | Some r => JStr (resp_statusText r)
  | None => JUndefined
  end.

Definition raw_requestId (result : FetchJSONResult) : option string :=
  match res_raw result with
  | Some r => obj_get (resp_headers r) "x-request-id"
  | None => None
  end.

(** The error [executeRequest] throws for a result that is not [ok]. *)
Definition api_error_of_result (result : FetchJSONResult) : HyperstreamApiError :=
  let payload := res_data result in
  let message :=
    js_or (js_or (js_or (js_get payload "message") (js_get payload "error"))
                 (raw_statusText result))
          (JStr "Hyperstream API request failed") in
  new_HyperstreamApiError message (res_status result)
    (js_coalesce (js_get payload "code") JUndefined)
    (DetailsValue (js_coalesce (js_get payload "details") payload))
    (raw_requestId result) payload.

Definition executeRequest (self : Fetch) (path : string) (config : ClientRequestConfig)
    : M JsVal :=
  let headers :=
    obj_spread [("Accept", "application/json")] (or_empty (rc_headers config)) in
  let options := Some {| method := None; init_headers := Some headers; body := None |} in
  let method := match rc_method config with Some m => m | None => "GET" end in
  result <- (if String.eqb method "GET"
             then transport_get self path options
             else transport_post self path (rc_body config) options) ;;
  if negb (res_ok result) then throw (ThrowApi (api_error_of_result result))
  else ret (res_data result).

Definition dispatchRequest (self : Fetch) (config : ClientRequestConfig) : M JsVal :=
  let path := buildPathWithQuery (rc_path config) (rc_query config) in
  executeRequest self path config.

Definition getJson (self : Fetch) (path : string) : M JsVal :=
  dispatchRequest self
    {| rc_path := path; rc_method := Some "GET"; rc_body := JUndefined;
       rc_query := None; rc_headers := None |}.

Definition postJson (self : Fetch) (path : string) (payload : JsVal) : M JsVal :=
  dispatchRequest self
    {| rc_path := path; rc_method := Some "POST"; rc_body := payload;
       rc_query := None; rc_headers := None |}.

Definition quotes (self : Fetch) (req : JsVal) : M JsVal :=
  postJson self "/v1/quotes" req.

Definition getToken (self : Fetch) (chainId : Z) (identifier : string) : M JsVal :=
  let encodedIdentifier := encodeURIComponent identifier in
  let path :=
    if isHexLike identifier
    then "/v1/tokens/" ++ number_to_string chainId ++ "/" ++ encodedIdentifier
    else "/v1/tokens/" ++ number_to_string chainId ++ "/symbol/" ++ encodedIdentifier in
  try_catch (getJson self path)
    (fun error =>
       match error with
       | ThrowApi e =>
           if (err_status e =? 404) || (err_status e =? 400) then ret JNull
           else throw error
       | _ => throw error
       end).

Definition getChains (self : Fetch) : M JsVal :=
  getJson self "/v1/chains".

Definition getIntentStatus (self : Fetch) (intent : string) : M JsVal :=
  getJson self ("/v1/intent/" ++ encodeURIComponent intent).

Definition getIntentByDeposit (self : Fetch) (chainId : Z) (txHash : string) : M JsVal :=
  try_catch
    (getJson self ("/v1/intent/by-deposit/" ++ number_to_string chainId ++ "/"
                   ++ encodeURIComponent txHash))
    (fun error =>
       match error with
       | ThrowApi e => if err_status e =? 404 then ret JNull else throw error
       | _ => throw error
       end).

Definition submitDeposit (self : Fetch) (req : JsVal) : M bool :=
  response <- postJson self "/v1/deposits/submit" req ;;
  if negb (truthy response) then ret false
  else ret (strict_eq_str (js_get response "status") "accepted").

(** *** searchTokens: an async generator

    A generator object is suspended before its first statement, suspended at
    the [yield] (holding [page]), or closed.  [searchTokens_next] is one call
    of its [next()]: it runs the body up to the next [yield], [return] or
    [throw]. *)

Inductive GenState : Type :=
| GenStart
| GenSuspended (page : JsVal)
| GenClosed.

Inductive IterResult : Type :=
| IterYield (value : JsVal)
| IterDone.

(** [v.key]: a [TypeError] on a nullish receiver. *)
Definition js_member (v : JsVal) (key : string) : Thrown + JsVal :=
  if is_nullish v
  then inl (ThrowOther (FailError "TypeError"
                          ("Cannot read properties of " ++ js_to_string v)))
  else inr (js_get v key).

Definition is_undefined (v : JsVal) : bool :=
  match v with
  | JUndefined => true
  | _ => false
  end.

(** One pass through the body of the [do ... while] loop, up to the [yield]. *)
Definition searchTokens_body (self : Fetch) (req : Props JsVal) (cursor : JsVal)
    : World -> (Thrown + IterResult) * GenState * World :=
  fun w =>
    let payload := JObj (obj_set (obj_spread [] req) "cursor" cursor) in
    match postJson self "/v1/tokens/search" payload w with
    | (inl t, w') => (inl t, GenClosed, w')
    | (inr page, w') =>
        match js_member page "data" with
        | inl t => (inl t, GenClosed, w')
        | inr data => (inr (IterYield data), GenSuspended page, w')
        end
    end.

Definition searchTokens_next (self : Fetch) (req : Props JsVal) (st : GenState)
    : World -> (Thrown + IterResult) * GenState * World :=
  fun w =>
    match st with
    | GenStart => searchTokens_body self req (js_get (JObj req) "cursor") w
    | GenSuspended page =>
        match js_member page "cursor" with
        | inl t => (inl t, GenClosed, w)
        | inr c =>
            let cursor := js_coalesce c JUndefined in
            if negb (is_undefined cursor) then searchTokens_body self req cursor w
            else (inr IterDone, GenClosed, w)
        end
    | GenClosed => (inr IterDone, GenClosed, w)
    end.

(** The outcome of [for await (const page of client.searchTokens(req))]
    with a body that collects the batches. *)
Record Consumed : Type := mkConsumed {
  batches : list JsVal;
  failure : option Thrown;
  final : World
}.

Fixpoint for_await (fuel : nat) (self : Fetch) (req : Props JsVal) (st : GenState)
    (seen : list JsVal) (w : World) : option Consumed :=
  match fuel with
  | O => None
  | S fuel' =>
      match searchTokens_next self req st w with
      | (inl t, _, w') => Some (mkConsumed seen (Some t) w')
      | (inr IterDone, _, w') => Some (mkConsumed seen None w')
      | (inr (IterYield v), st', w') =>
          for_await fuel' self req st' (seen ++ [v])%list w'
      end
  end.

Definition searchTokens (fuel : nat) (self : Fetch) (req : Props JsVal) (w : World)
    : option Consumed :=
  for_await fuel self req GenStart [] w.

(** ** What one dispatch sends and what it makes of the answer

    These two definitions restate [dispatchRequest] for a client without
    interceptors; [dispatch_fetch] below proves that they agree with it. *)

Definition dispatch_call (self : Fetch) (rc : ClientRequestConfig) : MockCall :=
  let path := buildPathWithQuery (rc_path rc) (rc_query rc) in
  let accept :=
    obj_spread [("Accept", "application/json")] (or_empty (rc_headers rc)) in
  let method := match rc_method rc with Some m => m | None => "GET" end in
  mkCall (fullUrl_of self path)
    (finalInit_of self
       (if String.eqb method "GET"
        then {| method := Some "GET"; init_headers := Some accept; body := None |}
        else {| method := Some "POST";
                init_headers :=
                  Some (obj_spread [("Content-Type", "application/json")] accept);
                body := JSON_stringify (rc_body rc) |})).

Definition dispatch_outcome (answer : Thrown + Response) : Thrown + JsVal :=
  match answer with
  | inl t => inl (ThrowApi (normalizeTransportError t))
  | inr r =>
      if resp_ok r then inr (res_data (decode r))
      else inl (ThrowApi (api_error_of_result (decode r)))
  end.

(** ** Vocabulary of the specification *)

(** A page is a 2xx response whose body decodes to an object; its batch is
    the [data] property and its continuation cursor the [cursor] property. *)
Definition page_of (r : Response) : JsVal := res_data (decode r).

Definition is_page (r : Response) : bool :=
  resp_ok r && match resp_json r with
               | Some (JObj _) => true
               | _ => false
               end.

Definition batch_of (r : Response) : JsVal := js_get (page_of r) "data".
Definition cursor_of (r : Response) : JsVal := js_get (page_of r) "cursor".

Definition bears_cursor (r : Response) : bool := negb (is_nullish (cursor_of r)).

Definition omits_cursor (r : Response) : bool :=
  match resp_json r with
  | Some (JObj props) =>
      match obj_get props "cursor" with
      | None => true
      | Some _ => false
      end
  | _ => false
  end.

(** The request [searchTokens] dispatches for a given cursor. *)
Definition search_config (req : Props JsVal) (cursor : JsVal) : ClientRequestConfig :=
  {| rc_path := "/v1/tokens/search";
     rc_method := Some "POST";
     rc_body := JObj (obj_set (obj_spread [] req) "cursor" cursor);
     rc_query := None;
     rc_headers := None |}.

(** The generator is about to run the loop body with cursor [cur]. *)
Definition resumes_with (self : Fetch) (req : Props JsVal) (st : GenState)
    (cur : JsVal) : Prop :=
  forall w, searchTokens_next self req st w = searchTokens_body self req cur w.

(** A dispatch fails when the answer is a response outside 200-299 or when
    the network call throws; either way one [HyperstreamApiError] comes out. *)
Inductive dispatch_fails : FetchOutcome -> HyperstreamApiError -> Prop :=
| fails_by_status (r : Response) :
    resp_ok r = false ->
    dispatch_fails (Resolve r) (api_error_of_result (decode r))
| fails_in_transport (t : Thrown) :
    dispatch_fails (Reject t) (normalizeTransportError t).

(** The hex pattern in words: [0x] followed by one or more hex digits. *)
Definition hex_digit_chars : list ascii := list_ascii_of_string "0123456789abcdefABCDEF".

Definition HexPattern (s : string) : Prop :=
  exists digits,
    s = "0x" ++ digits /\
    digits <> "" /\
    forall c, In c (list_ascii_of_string digits) -> In c hex_digit_chars.

(** The decoded body of a response, as [executeRequest] sees it. *)
Definition payload_of (r : Response) : JsVal := res_data (decode r).

(** How a caught failure describes itself: an [Error] by its message, any
    other thrown value by its string conversion. *)
Definition failure_description (f : Failure) : string :=
  match f with
  | FailError _ m => m
  | FailValue v => js_to_string v
  end.

(** The transport-failure rule read for every thrown value. *)
Definition transport_error_shape (f : Failure) (e : HyperstreamApiError) : Prop :=
  err_status e = 0 /\
  err_code e = JStr "TransportError" /\
  err_message e = failure_description f /\
  err_details e = DetailsError f.

(** Stripping in words: [t] is [s] without its trailing slashes. *)
Fixpoint slashes (n : nat) : string :=
  match n with
  | O => EmptyString
  | S k => String slash (slashes k)
  end.

Definition ends_with_slash (s : string) : Prop := exists p, s = p ++ "/".

Definition StrippedOf (s t : string) : Prop :=
  (exists n, s = t ++ slashes n) /\ ~ ends_with_slash t.

(** The base-address rule read for every non-empty configured address. *)
Definition base_address_stripped (config : HyperstreamClientConfig) (self : Fetch)
    : Prop :=
  exists b, baseURL self = Some b /\ StrippedOf (baseUrl config) b.

(** The leading-slash rule read literally, and the query entries in words:
    nullish values dropped, the others converted to strings. *)
Definition one_leading_slash (p : string) : Prop :=
  exists rest, p = "/" ++ rest /\ startsWith rest "/" = false.

Definition query_pairs (entries : Props JsVal) : Props string :=
  map (fun kv => (fst kv, js_to_string (snd kv)))
      (filter (fun kv => negb (is_nullish (snd kv))) entries).

(** ** Fixtures, after the test suite *)

Definition test_config : HyperstreamClientConfig :=
  mkConfig "https://api.test.hyperstream.xyz" None None.

Definition test_client : Fetch :=
  mkFetch (Some "https://api.test.hyperstream.xyz") [] [] [].

Definition json_headers : Props string := [("content-type", "application/json")].

Definition token (address symbol : string) (decimals : Z) : JsVal :=
  JObj [("address", JStr address); ("chainId", JNum 1); ("name", JStr symbol);
        ("symbol", JStr symbol); ("decimals", JNum decimals)].

Definition first_page : Response :=
  mkResponse 200 "" json_headers
    (Some (JObj [("data", JArr [token "0x1" "TK1" 18]); ("cursor", JNum 99)])).

Definition last_page : Response :=
  mkResponse 200 "" json_headers
    (Some (JObj [("data", JArr [token "0x2" "TK2" 6])])).

Definition zero_cursor_page : JsVal :=
  JObj [("data", JArr []); ("cursor", JNum 0)].

Definition server_error : Response :=
  mkResponse 500 "" json_headers
    (Some (JObj [("message", JStr "Boom"); ("code", JStr "ServerError")])).

Definition not_found : Response :=
  mkResponse 404 "" json_headers (Some (JObj [("message", JStr "NotFound")])).

Definition accepted : Response :=
  mkResponse 200 "" json_headers (Some (JObj [("status", JStr "accepted")])).

Definition search_request : Props JsVal := [("q", JStr "USDC"); ("limit", JNum 1)].

Definition get_chains : ClientRequestConfig :=
  {| rc_path := "/v1/chains"; rc_method := Some "GET"; rc_body := JUndefined;
     rc_query := None; rc_headers := None |}.

Definition connection_refused : Thrown :=
  ThrowOther (FailError "TypeError" "fetch failed").

(** ** fetch.ts: the remaining verbs, and index.ts *)

Definition put (self : Fetch) (url : string) (payload : JsVal)
    (options : option RequestInit) : M FetchJSONResult :=
  let o := match options with Some o => o | None => no_init end in
  request self url
    {| method := Some "PUT";
       init_headers :=
         Some (obj_spread [("Content-Type", "application/json")]
                          (or_empty (init_headers o)));
       body := JSON_stringify payload |}.

Definition delete (self : Fetch) (url : string) (options : option RequestInit)
    : M FetchJSONResult :=
  let o := match options with Some o => o | None => no_init end in
  request self url
    {| method := Some "DELETE"; init_headers := init_headers o; body := body o |}.


(** ** More vocabulary *)

(** What a list of interceptors makes of a value, as a plain result;
    [run_interceptors_chain] relates it to the loop of [request]. *)
Fixpoint chain {A : Type} (list : list (A -> Thrown + A)) (x : A) : Thrown + A :=
  match list with
  | [] => inr x
  | interceptor :: rest =>
      match interceptor x with
      | inl t => inl t
      | inr y => chain rest y
      end
  end.

(** A generator state the body can have produced: a suspended generator
    holds a page on which [page.data] did not throw. *)
Definition reachable (st : GenState) : Prop :=
  match st with
  | GenSuspended page => is_nullish page = false
  | _ => True
  end.

(** The characters [encodeURIComponent] can produce. *)
Definition uri_component_char (c : ascii) : bool :=
  Ascii.eqb c "%" || is_alpha c || is_digit c || mem_ascii c "-_.!~*'()".

(** Fixtures for interceptors and headers. *)
Definition failing_interceptor : RequestInterceptor :=
  fun _ => inl (ThrowOther (FailError "Error" "offline")).

Definition retarget_interceptor : RequestInterceptor :=
  fun sent => inr (fst sent ++ "?trace=1", snd sent).

Definition mask_server_errors : ResponseInterceptor :=
  fun r => if 500 <=? resp_status r
           then inr (mkResponse 200 "" (resp_headers r) (resp_json r))
           else inr r.

Definition branded_config : HyperstreamClientConfig :=
  mkConfig "https://api.test.hyperstream.xyz/"
    (Some [("x-app-id", "sdk-tests"); ("Accept", "text/html"); ("User-Agent", "old")])
    (Some "hyperstream-sdk/1.0").

Definition null_body_page : Response := mkResponse 200 "" json_headers (Some JNull).


(** One run of a verb of [Fetch]: its outcome, what it leaves of the
    script, and the one call it records. *)
Definition one_call (self : Fetch) (url verb : string) (w : World)
    (answer : Thrown + FetchJSONResult) (rest : list FetchOutcome)
    (run : (Thrown + FetchJSONResult) * World) : Prop :=
  fst run = answer /\
  responses (snd run) = rest /\
  exists call,
    calls (snd run) = (calls w ++ [call])%list /\
    input call = fullUrl_of self url /\
    method (init call) = Some verb.

Definition branded_client : Fetch :=
  match HyperstreamClient_constructor branded_config with
  | inr self => self
  | inl _ => test_client
  end.

Definition intercepted_client : Fetch :=
  addResponseInterceptor (addRequestInterceptor test_client retarget_interceptor)
    mask_server_errors.

(** * Properties *)

(** The scenarios of the test suite, run. *)

Example two_pages_two_batches_two_calls :
  match searchTokens 3 test_client search_request
          (mkWorld [Resolve first_page; Resolve last_page] []) with
  | Some run => (batches run, failure run, List.length (calls (final run)))
  | None => ([], None, O)
  end
  = ([JArr [token "0x1" "TK1" 18]; JArr [token "0x2" "TK2" 6]], None, 2%nat).
Proof. reflexivity. Qed.

Example second_request_carries_cursor :
  match searchTokens 3 test_client search_request
          (mkWorld [Resolve first_page; Resolve last_page] []) with
  | Some run => map (fun c => (input c, body (init c))) (calls (final run))
  | None => []
  end
  = [("https://api.test.hyperstream.xyz/v1/tokens/search",
      Some (JObj [("q", JStr "USDC"); ("limit", JNum 1)]));
     ("https://api.test.hyperstream.xyz/v1/tokens/search",
      Some (JObj [("q", JStr "USDC"); ("limit", JNum 1); ("cursor", JNum 99)]))].
Proof. reflexivity. Qed.

Example server_error_is_exposed :
  fst (getIntentStatus test_client "0xdeadbeef" (mkWorld [Resolve server_error] []))
  = inl (ThrowApi
           {| err_message := "Boom"; err_status := 500; err_code := JStr "ServerError";
              err_details := DetailsValue (JObj [("message", JStr "Boom");
                                                 ("code", JStr "ServerError")]);
              err_requestId := None;
              err_causeResponseBody := JObj [("message", JStr "Boom");
                                             ("code", JStr "ServerError")] |}).
Proof. reflexivity. Qed.

Example accepted_deposit :
  fst (submitDeposit test_client (JObj [("intentId", JStr "0x01")])
         (mkWorld [Resolve accepted] [])) = inr true.
Proof. reflexivity. Qed.

Example base_of_slashes_doubles_the_slash :
  match HyperstreamClient_constructor (mkConfig "/" None None) with
  | inr self => map input (calls (snd (getChains self (mkWorld [] []))))
  | inl _ => []
  end = ["//v1/chains"].
Proof. reflexivity. Qed.

Section Dispatch.

Variable self : Fetch.
Hypothesis no_request_interceptors : requestInterceptors self = [].
Hypothesis no_response_interceptors : responseInterceptors self = [].

Lemma request_fetch (url : string) (options : RequestInit) (w : World) :
  request self url options w =
  match fetchImpl (fullUrl_of self url) (finalInit_of self options) w with
  | (inr r, w') => (inr (decode r), w')
  | (inl t, w') => (inl t, w')
  end.
Proof.
  unfold request.
  rewrite no_request_interceptors, no_response_interceptors.
  unfold bind, run_interceptors, ret; simpl.
  destruct (fetchImpl _ _ w) as [[t | r] w']; reflexivity.
Qed.

Lemma transport_get_fetch (url : string) (options : RequestInit) (w : World) :
  transport_get self url (Some options) w =
  match fetchImpl (fullUrl_of self url)
          (finalInit_of self
             {| method := Some "GET"; init_headers := init_headers options;
                body := body options |}) w with
  | (inr r, w') => (inr (decode r), w')
  | (inl t, w') => (inl (ThrowApi (normalizeTransportError t)), w')
  end.
Proof.
  unfold transport_get, try_catch, get. rewrite request_fetch.
  destruct (fetchImpl _ _ w) as [[t | r] w']; reflexivity.
Qed.

Lemma transport_post_fetch (url : string) (payload : JsVal) (options : RequestInit)
    (w : World) :
  transport_post self url payload (Some options) w =
  match fetchImpl (fullUrl_of self url)
          (finalInit_of self
             {| method := Some "POST";
                init_headers :=
                  Some (obj_spread [("Content-Type", "application/json")]
                                   (or_empty (init_headers options)));
                body := JSON_stringify payload |}) w with
  | (inr r, w') => (inr (decode r), w')
  | (inl t, w') => (inl (ThrowApi (normalizeTransportError t)), w')
  end.
Proof.
  unfold transport_post, try_catch, post. rewrite request_fetch.
  destruct (fetchImpl _ _ w) as [[t | r] w']; reflexivity.
Qed.

Lemma dispatch_fetch (rc : ClientRequestConfig) (w : World) :
  dispatchRequest self rc w =
  (dispatch_outcome
     (fst (fetchImpl (input (dispatch_call self rc)) (init (dispatch_call self rc)) w)),
   snd (fetchImpl (input (dispatch_call self rc)) (init (dispatch_call self rc)) w)).
Proof.
  unfold dispatchRequest, executeRequest, dispatch_call, bind.
  destruct (String.eqb _ "GET"); cbn [input init].
  - rewrite transport_get_fetch; cbn [init_headers body or_empty].
    destruct (fetchImpl _ _ w) as [[t | r] w']; cbn [fst snd dispatch_outcome].
    + reflexivity.
    + change (res_ok (decode r)) with (resp_ok r).
      destruct (resp_ok r); reflexivity.
  - rewrite transport_post_fetch; cbn [init_headers body or_empty].
    destruct (fetchImpl _ _ w) as [[t | r] w']; cbn [fst snd dispatch_outcome].
    + reflexivity.
    + change (res_ok (decode r)) with (resp_ok r).
      destruct (resp_ok r); reflexivity.
Qed.

(** The three things the environment can do with one invocation. *)
Lemma dispatch_resolve (rc : ClientRequestConfig) (w : World) (r : Response)
    (rest : list FetchOutcome) :
  responses w = Resolve r :: rest ->
  dispatchRequest self rc w =
  (dispatch_outcome (inr r), mkWorld rest (calls w ++ [dispatch_call self rc])%list).
Proof.
  intros Hw. rewrite dispatch_fetch. unfold fetchImpl. rewrite Hw.
  destruct (dispatch_call self rc); reflexivity.
Qed.

Lemma dispatch_reject (rc : ClientRequestConfig) (w : World) (t : Thrown)
    (rest : list FetchOutcome) :
  responses w = Reject t :: rest ->
  dispatchRequest self rc w =
  (dispatch_outcome (inl t), mkWorld rest (calls w ++ [dispatch_call self rc])%list).
Proof.
  intros Hw. rewrite dispatch_fetch. unfold fetchImpl. rewrite Hw.
  destruct (dispatch_call self rc); reflexivity.
Qed.

Lemma dispatch_logs (rc : ClientRequestConfig) (w : World) :
  calls (snd (dispatchRequest self rc w)) = (calls w ++ [dispatch_call self rc])%list.
Proof.
  rewrite dispatch_fetch. unfold fetchImpl.
  destruct (dispatch_call self rc) as [u i]; cbn [input init snd].
  destruct (responses w) as [| [r | t] rest]; reflexivity.
Qed.

End Dispatch.

(** ** Pagination *)

Lemma last_cons {A : Type} (l : list A) (a d : A) : last (a :: l) d = last l a.
Proof.
  revert a d. induction l as [| b l IH]; intros a d; [reflexivity |].
  change (last (a :: b :: l) d) with (last (b :: l) d).
  rewrite (IH b d), (IH b a). reflexivity.
Qed.

Lemma removelast_cons2 {A : Type} (l : list A) (a b : A) :
  removelast (a :: b :: l) = a :: removelast (b :: l).
Proof. reflexivity. Qed.

Lemma map_removelast_last {A B : Type} (f : A -> B) (l : list A) (a : A) :
  (map f (removelast (a :: l)) ++ [f (last l a)])%list = map f (a :: l).
Proof.
  rewrite <- (last_cons l a a).
  change [f (last (a :: l) a)] with (map f [last (a :: l) a]).
  rewrite <- map_app, <- app_removelast_last by discriminate.
  reflexivity.
Qed.

Section Pagination.

Variable self : Fetch.
Hypothesis no_request_interceptors : requestInterceptors self = [].
Hypothesis no_response_interceptors : responseInterceptors self = [].
Variable req : Props JsVal.

Lemma start_resumes : resumes_with self req GenStart (js_get (JObj req) "cursor").
Proof. intros w. reflexivity. Qed.

Lemma page_not_nullish (r : Response) : is_page r = true -> is_nullish (page_of r) = false.
Proof.
  unfold is_page, page_of, decode; cbn [res_data].
  destruct (resp_json r) as [[] |]; rewrite ?andb_false_r; try discriminate; reflexivity.
Qed.

Lemma page_ok (r : Response) : is_page r = true -> resp_ok r = true.
Proof. unfold is_page. intros H. apply andb_true_iff in H. tauto. Qed.

Lemma suspended_resumes (r : Response) :
  is_page r = true -> bears_cursor r = true ->
  resumes_with self req (GenSuspended (page_of r)) (cursor_of r).
Proof.
  intros Hp Hc w. unfold searchTokens_next, js_member.
  rewrite (page_not_nullish r Hp).
  unfold bears_cursor in Hc. fold (cursor_of r).
  unfold js_coalesce.
  destruct (cursor_of r); try discriminate; reflexivity.
Qed.

(** One loop pass against a page: the batch is yielded, one call logged. *)
Lemma body_page (cur : JsVal) (w : World) (r : Response) (rest : list FetchOutcome) :
  is_page r = true ->
  responses w = Resolve r :: rest ->
  searchTokens_body self req cur w =
  (inr (IterYield (batch_of r)), GenSuspended (page_of r),
   mkWorld rest (calls w ++ [dispatch_call self (search_config req cur)])%list).
Proof.
  intros Hp Hw. unfold searchTokens_body, postJson.
  fold (search_config req cur).
  rewrite (dispatch_resolve self no_request_interceptors no_response_interceptors
             _ w r rest Hw).
  cbn [dispatch_outcome]. rewrite (page_ok r Hp).
  fold (page_of r). unfold js_member. rewrite (page_not_nullish r Hp).
  reflexivity.
Qed.

(** One loop pass against a failing dispatch: the error is thrown. *)
Lemma body_fails (cur : JsVal) (w : World) (o : FetchOutcome)
    (e : HyperstreamApiError) (rest : list FetchOutcome) :
  dispatch_fails o e ->
  responses w = o :: rest ->
  searchTokens_body self req cur w =
  (inl (ThrowApi e), GenClosed,
   mkWorld rest (calls w ++ [dispatch_call self (search_config req cur)])%list).
Proof.
  intros Hf Hw. unfold searchTokens_body, postJson.
  fold (search_config req cur).
  destruct Hf as [r Hr | t].
  - rewrite (dispatch_resolve self no_request_interceptors no_response_interceptors
               _ w r rest Hw).
    cbn [dispatch_outcome]. rewrite Hr. reflexivity.
  - rewrite (dispatch_reject self no_request_interceptors no_response_interceptors
               _ w t rest Hw).
    reflexivity.
Qed.

(** Consuming a run of cursor-bearing pages: one batch and one call per
    page, each call carrying the cursor of the page before it. *)
Lemma for_await_pages (pages : list Response) :
  forall (k : nat) (st : GenState) (cur : JsVal) (seen : list JsVal) (w : World)
         (tail : list FetchOutcome),
    resumes_with self req st cur ->
    forallb is_page pages = true ->
    forallb bears_cursor pages = true ->
    responses w = (map Resolve pages ++ tail)%list ->
    exists st',
      resumes_with self req st' (last (map cursor_of pages) cur) /\
      for_await (List.length pages + k) self req st seen w =
      for_await k self req st' (seen ++ map batch_of pages)%list
        (mkWorld tail
           (calls w ++
            map (fun c => dispatch_call self (search_config req c))
                (removelast (cur :: map cursor_of pages)))%list).
Proof.
  induction pages as [| p ps IH]; intros k st cur seen w tail Hst Hp Hc Hw.
  - exists st. split; [exact Hst |].
    cbn [List.length map removelast Nat.add]. rewrite !app_nil_r.
    destruct w as [rs cs]. cbn in Hw. subst rs. reflexivity.
  - cbn [forallb] in Hp, Hc.
    apply andb_true_iff in Hp as [Hp Hps]. apply andb_true_iff in Hc as [Hc Hcs].
    cbn [map app] in Hw.
    destruct (IH k (GenSuspended (page_of p)) (cursor_of p) (seen ++ [batch_of p])%list
                (mkWorld (map Resolve ps ++ tail)
                   (calls w ++ [dispatch_call self (search_config req cur)]))%list
                tail (suspended_resumes p Hp Hc) Hps Hcs eq_refl)
      as (st' & Hst' & Hrun).
    exists st'. split.
    + cbn [map]. rewrite last_cons. exact Hst'.
    + cbn [List.length Nat.add for_await]. rewrite Hst.
      rewrite (body_page cur w p _ Hp Hw).
      rewrite Hrun. cbn [calls map]. rewrite removelast_cons2.
      cbn [map]. rewrite <- !app_assoc. reflexivity.
Qed.

End Pagination.

(** ** Construction *)

Lemma constructor_inv (config : HyperstreamClientConfig) (self : Fetch) :
  HyperstreamClient_constructor config = inr self ->
  baseUrl config <> "" /\
  requestInterceptors self = [] /\
  responseInterceptors self = [] /\
  baseURL self =
    Some (if String.eqb (strip_trailing_slashes (baseUrl config)) ""
          then baseUrl config
          else strip_trailing_slashes (baseUrl config)).
Proof.
  unfold HyperstreamClient_constructor.
  destruct (String.eqb (baseUrl config) "") eqn:E; [discriminate |].
  intros H. injection H as <-.
  apply String.eqb_neq in E.
  repeat split; try reflexivity; exact E.
Qed.

Lemma constructor_total (config : HyperstreamClientConfig) :
  baseUrl config <> "" ->
  exists self, HyperstreamClient_constructor config = inr self.
Proof.
  intros H. unfold HyperstreamClient_constructor.
  apply String.eqb_neq in H. rewrite H. eexists. reflexivity.
Qed.

(** ** The searchTokens sequence *)

(** C1. Against pages of which exactly the last one omits the cursor, the
    consumed sequence yields the [data] of every page in server order (an
    empty batch included), makes one dispatch per page, each carrying the
    cursor of the page before it, and ends normally without touching what
    the server would have answered next. *)
Theorem searchTokens_one_batch_per_page
    (config : HyperstreamClientConfig) (self : Fetch) (req : Props JsVal)
    (pages : list Response) (final_page : Response)
    (rest : list FetchOutcome) (w : World) (fuel : nat) :
  HyperstreamClient_constructor config = inr self ->
  forallb is_page pages = true ->
  forallb bears_cursor pages = true ->
  is_page final_page = true ->
  omits_cursor final_page = true ->
  responses w = (map Resolve (pages ++ [final_page]) ++ rest)%list ->
  (List.length pages + 2 <= fuel)%nat ->
  searchTokens fuel self req w =
  Some {| batches := map batch_of (pages ++ [final_page]);
          failure := None;
          final :=
            mkWorld rest
              (calls w ++
               map (fun c => dispatch_call self (search_config req c))
                   (js_get (JObj req) "cursor" :: map cursor_of pages))%list |}.
Proof.
  intros Hc Hp Hb Hf Ho Hw Hfuel.
  destruct (constructor_inv config self Hc) as (_ & Hri & Hro & _).
  replace fuel with (List.length pages + S (S (fuel - List.length pages - 2)))%nat by lia.
  rewrite map_app, <- app_assoc in Hw. cbn [map app] in Hw.
  unfold searchTokens.
  assert (Hcur : js_get (page_of final_page) "cursor" = JUndefined).
  { unfold omits_cursor in Ho. unfold page_of, decode; cbn [res_data].
    destruct (resp_json final_page) as [[] |]; try discriminate.
    cbn [js_get]. destruct (obj_get props "cursor"); [discriminate | reflexivity]. }
  destruct (for_await_pages self Hri Hro req pages
              (S (S (fuel - List.length pages - 2))) GenStart _ [] w _
              (start_resumes self req) Hp Hb Hw) as (st' & Hst' & ->).
  cbn [for_await]. rewrite Hst'.
  erewrite (body_page self Hri Hro req _ _ final_page rest Hf) by reflexivity.
  cbn [searchTokens_next].
  unfold js_member. rewrite (page_not_nullish final_page Hf).
  rewrite Hcur. cbn [js_coalesce is_nullish is_undefined negb].
  cbn [calls app]. rewrite map_app, <- app_assoc.
  rewrite (map_removelast_last (fun c => dispatch_call self (search_config req c))).
  reflexivity.
Qed.

(** C2. When the first N-1 dispatches return cursor-bearing pages and the
    N-th fails, the consumer has received exactly those N-1 batches, the
    sequence fails with the error of the N-th dispatch, and exactly N calls
    were made: the failed one is not repeated and nothing after it is asked. *)
Theorem searchTokens_fails_with_page_error
    (config : HyperstreamClientConfig) (self : Fetch) (req : Props JsVal)
    (pages : list Response) (o : FetchOutcome) (e : HyperstreamApiError)
    (rest : list FetchOutcome) (w : World) (fuel : nat) :
  HyperstreamClient_constructor config = inr self ->
  forallb is_page pages = true ->
  forallb bears_cursor pages = true ->
  dispatch_fails o e ->
  responses w = (map Resolve pages ++ o :: rest)%list ->
  (List.length pages + 1 <= fuel)%nat ->
  searchTokens fuel self req w =
  Some {| batches := map batch_of pages;
          failure := Some (ThrowApi e);
          final :=
            mkWorld rest
              (calls w ++
               map (fun c => dispatch_call self (search_config req c))
                   (js_get (JObj req) "cursor" :: map cursor_of pages))%list |}.
Proof.
  intros Hc Hp Hb Hf Hw Hfuel.
  destruct (constructor_inv config self Hc) as (_ & Hri & Hro & _).
  replace fuel with (List.length pages + S (fuel - List.length pages - 1))%nat by lia.
  unfold searchTokens.
  destruct (for_await_pages self Hri Hro req pages
              (S (fuel - List.length pages - 1)) GenStart _ [] w _
              (start_resumes self req) Hp Hb Hw) as (st' & Hst' & ->).
  cbn [for_await]. rewrite Hst'.
  erewrite (body_fails self Hri Hro req _ _ o e rest Hf) by reflexivity.
  cbn [calls app]. rewrite <- app_assoc.
  rewrite (map_removelast_last (fun c => dispatch_call self (search_config req c))).
  reflexivity.
Qed.

Lemma body_logs (self : Fetch) (req : Props JsVal) (cur : JsVal) (w : World) :
  requestInterceptors self = [] ->
  responseInterceptors self = [] ->
  calls (snd (searchTokens_body self req cur w)) =
  (calls w ++ [dispatch_call self (search_config req cur)])%list /\
  fst (fst (searchTokens_body self req cur w)) <> inr IterDone.
Proof.
  intros Hri Hro.
  pose proof (dispatch_logs self Hri Hro (search_config req cur) w) as Hlog.
  unfold searchTokens_body, postJson. fold (search_config req cur).
  destruct (dispatchRequest self (search_config req cur) w) as [[t | page] w'];
    cbn [snd] in Hlog.
  - split; [exact Hlog | discriminate].
  - destruct (js_member page "data"); split; try exact Hlog; discriminate.
Qed.

Lemma wire_cursor (props : Props JsVal) (c : JsVal) :
  c <> JUndefined ->
  js_get (json_value (JObj (obj_set props "cursor" c))) "cursor" = json_value c.
Proof.
  intros Hc. induction props as [| [k x] rest IH].
  - destruct c; try contradiction; reflexivity.
  - cbn [obj_set]. destruct (String.eqb k "cursor") eqn:E.
    + destruct c; try contradiction; cbn; rewrite E; reflexivity.
    + destruct x; cbn; cbn in IH; rewrite ?E; exact IH.
Qed.

(** C10. Whether the sequence goes on after a page is decided by the cursor
    being nullish, not by its truthiness: cursor 0 issues the next request,
    whose body carries cursor 0; an absent or null cursor ends the sequence
    without a request. *)
Theorem cursor_zero_continues_nullish_stops
    (config : HyperstreamClientConfig) (self : Fetch) (req : Props JsVal)
    (page : JsVal) (w : World) :
  HyperstreamClient_constructor config = inr self ->
  is_nullish page = false ->
  let resumed := searchTokens_next self req (GenSuspended page) w in
  (js_get page "cursor" = JNum 0 ->
     fst (fst resumed) <> inr IterDone /\
     exists call sent,
       calls (snd resumed) = (calls w ++ [call])%list /\
       body (init call) = Some sent /\
       js_get sent "cursor" = JNum 0) /\
  (js_get page "cursor" = JUndefined \/ js_get page "cursor" = JNull ->
     resumed = (inr IterDone, GenClosed, w)) /\
  (is_nullish (js_get page "cursor") = false ->
     fst (fst resumed) <> inr IterDone /\
     calls (snd resumed) =
       (calls w ++ [dispatch_call self (search_config req (js_get page "cursor"))])%list).
Proof.
  intros Hc Hpage resumed.
  destruct (constructor_inv config self Hc) as (_ & Hri & Hro & _).
  assert (Hgo : is_nullish (js_get page "cursor") = false ->
                resumed = searchTokens_body self req (js_get page "cursor") w).
  { intros Hn. unfold resumed, searchTokens_next, js_member. rewrite Hpage.
    unfold js_coalesce. rewrite Hn.
    destruct (js_get page "cursor"); try discriminate; reflexivity. }
  split; [| split].
  - intros H0.
    assert (Hn : is_nullish (js_get page "cursor") = false) by (rewrite H0; reflexivity).
    rewrite (Hgo Hn), H0.
    destruct (body_logs self req (JNum 0) w Hri Hro) as [Hlog Hnot].
    split; [exact Hnot |].
    exists (dispatch_call self (search_config req (JNum 0))).
    exists (json_value (JObj (obj_set (obj_spread [] req) "cursor" (JNum 0)))).
    split; [exact Hlog |]. split; [reflexivity |].
    apply (wire_cursor _ (JNum 0)). discriminate.
  - intros Hnull. unfold resumed, searchTokens_next, js_member. rewrite Hpage.
    destruct Hnull as [-> | ->]; reflexivity.
  - intros Hn. rewrite (Hgo Hn).
    destruct (body_logs self req (js_get page "cursor") w Hri Hro) as [Hlog Hnot].
    split; assumption.
Qed.

(** ** Error normalisation *)

Lemma js_or_truthy (a b : JsVal) : truthy a = true -> js_or a b = a.
Proof. unfold js_or. intros ->. reflexivity. Qed.

Lemma js_or_falsy (a b : JsVal) : truthy a = false -> js_or a b = b.
Proof. unfold js_or. intros ->. reflexivity. Qed.

Lemma error_message_truthy (m : JsVal) (status : Z) (code : JsVal) (details : Details)
    (requestId : option string) (cause : JsVal) :
  truthy m = true ->
  err_message (new_HyperstreamApiError m status code details requestId cause) =
  js_to_string m.
Proof. destruct m; try discriminate; reflexivity. Qed.

(** C3. A response outside 200-299 makes the dispatch throw an error that
    carries the HTTP status; its message is the first usable one of the
    body's [message], the body's [error], the status text and a fixed text;
    its code is the body's [code] when the body has one. *)
Theorem non_2xx_error_status_message_code
    (config : HyperstreamClientConfig) (self : Fetch) (rc : ClientRequestConfig)
    (w : World) (r : Response) (rest : list FetchOutcome) :
  HyperstreamClient_constructor config = inr self ->
  responses w = Resolve r :: rest ->
  ~ (200 <= resp_status r <= 299) ->
  let m := js_get (payload_of r) "message" in
  let er := js_get (payload_of r) "error" in
  let code := js_get (payload_of r) "code" in
  exists e,
    fst (dispatchRequest self rc w) = inl (ThrowApi e) /\
    err_status e = resp_status r /\
    (truthy m = true -> err_message e = js_to_string m) /\
    (truthy m = false -> truthy er = true -> err_message e = js_to_string er) /\
    (truthy m = false -> truthy er = false -> resp_statusText r <> "" ->
       err_message e = resp_statusText r) /\
    (truthy m = false -> truthy er = false -> resp_statusText r = "" ->
       err_message e = "Hyperstream API request failed") /\
    (is_nullish code = false -> err_code e = code) /\
    (is_nullish code = true -> err_code e = JUndefined).
Proof.
  intros Hc Hw Hs m er code.
  destruct (constructor_inv config self Hc) as (_ & Hri & Hro & _).
  assert (Hok : resp_ok r = false).
  { unfold resp_ok. apply andb_false_iff.
    destruct (Z.leb_spec 200 (resp_status r)); [| now left].
    destruct (Z.leb_spec (resp_status r) 299); [| now right]. lia. }
  exists (api_error_of_result (decode r)).
  rewrite (dispatch_resolve self Hri Hro rc w r rest Hw).
  cbn [fst dispatch_outcome]. rewrite Hok.
  split; [reflexivity |]. split; [reflexivity |].
  unfold api_error_of_result, raw_statusText; cbn [res_raw decode].
  fold (payload_of r). fold m er code.
  repeat split.
  - intros Hm. rewrite !(js_or_truthy m) by exact Hm.
    apply error_message_truthy, Hm.
  - intros Hm He. rewrite (js_or_falsy m), !(js_or_truthy er) by assumption.
    apply error_message_truthy, He.
  - intros Hm He Ht. rewrite (js_or_falsy m), (js_or_falsy er) by assumption.
    assert (Hst : truthy (JStr (resp_statusText r)) = true).
    { cbn [truthy]. apply String.eqb_neq in Ht. rewrite Ht. reflexivity. }
    rewrite js_or_truthy by exact Hst.
    apply (error_message_truthy (JStr (resp_statusText r))), Hst.
  - intros Hm He Ht. rewrite (js_or_falsy m), (js_or_falsy er) by assumption.
    rewrite Ht. reflexivity.
  - intros Hn. cbn [new_HyperstreamApiError err_code]. unfold js_coalesce.
    rewrite Hn. reflexivity.
  - intros Hn. cbn [new_HyperstreamApiError err_code]. unfold js_coalesce.
    rewrite Hn. reflexivity.
Qed.

(** C4, as the code has it. A failure of the network call that is not
    already a [HyperstreamApiError] surfaces with status 0, the code
    [TransportError] and the failure wrapped in [details]; the message is
    the failure's own message when it is an [Error], and a fixed text for
    any other thrown value.  A thrown [HyperstreamApiError] passes through
    unchanged. *)
Theorem transport_failure_normalised
    (config : HyperstreamClientConfig) (self : Fetch) (rc : ClientRequestConfig)
    (w : World) (t : Thrown) (rest : list FetchOutcome) :
  HyperstreamClient_constructor config = inr self ->
  responses w = Reject t :: rest ->
  exists e,
    fst (dispatchRequest self rc w) = inl (ThrowApi e) /\
    (forall f, t = ThrowOther f ->
       err_status e = 0 /\
       err_code e = JStr "TransportError" /\
       err_details e = DetailsError f /\
       (forall name m, f = FailError name m -> err_message e = m) /\
       (forall v, f = FailValue v ->
          err_message e = "Hyperstream transport request failed")) /\
    (forall e0, t = ThrowApi e0 -> e = e0).
Proof.
  intros Hc Hw.
  destruct (constructor_inv config self Hc) as (_ & Hri & Hro & _).
  exists (normalizeTransportError t).
  rewrite (dispatch_reject self Hri Hro rc w t rest Hw).
  split; [reflexivity |]. split.
  - intros f ->. cbn. repeat split.
    + intros name m ->. reflexivity.
    + intros v ->. reflexivity.
  - intros e0 ->. reflexivity.
Qed.

(** ** Facade policies *)

(** C5. On a response outside 200-299, [getToken] answers [null] for 404
    and for 400 and [getIntentByDeposit] for 404 only; for every other
    status both throw the error of the dispatch as it is. *)
Theorem lookup_absence_policies
    (config : HyperstreamClientConfig) (self : Fetch)
    (chainId : Z) (identifier txHash : string)
    (w : World) (r : Response) (rest : list FetchOutcome) :
  HyperstreamClient_constructor config = inr self ->
  responses w = Resolve r :: rest ->
  resp_ok r = false ->
  let e := api_error_of_result (decode r) in
  err_status e = resp_status r /\
  (resp_status r = 404 \/ resp_status r = 400 ->
     fst (getToken self chainId identifier w) = inr JNull) /\
  (resp_status r <> 404 -> resp_status r <> 400 ->
     fst (getToken self chainId identifier w) = inl (ThrowApi e)) /\
  (resp_status r = 404 ->
     fst (getIntentByDeposit self chainId txHash w) = inr JNull) /\
  (resp_status r <> 404 ->
     fst (getIntentByDeposit self chainId txHash w) = inl (ThrowApi e)).
Proof.
  intros Hc Hw Hok e.
  destruct (constructor_inv config self Hc) as (_ & Hri & Hro & _).
  split; [reflexivity |].
  unfold getToken, getIntentByDeposit, try_catch, getJson.
  rewrite !(dispatch_resolve self Hri Hro _ w r rest Hw).
  cbn [dispatch_outcome]. rewrite Hok.
  change (err_status (api_error_of_result (decode r))) with (resp_status r).
  fold e.
  repeat split.
  - intros [-> | ->]; reflexivity.
  - intros H404 H400.
    apply Z.eqb_neq in H404, H400. rewrite H404, H400. reflexivity.
  - intros ->. reflexivity.
  - intros H404. apply Z.eqb_neq in H404. rewrite H404. reflexivity.
Qed.

(** C6. After a 2xx answer [submitDeposit] returns a boolean and never
    throws: [true] exactly when the decoded body is an object whose
    [status] is the string [accepted]; an undecodable body or any other
    shape gives [false]. *)
Theorem submitDeposit_true_iff_accepted
    (config : HyperstreamClientConfig) (self : Fetch) (req : JsVal)
    (w : World) (r : Response) (rest : list FetchOutcome) :
  HyperstreamClient_constructor config = inr self ->
  responses w = Resolve r :: rest ->
  resp_ok r = true ->
  exists b,
    fst (submitDeposit self req w) = inr b /\
    (b = true <->
     exists props,
       resp_json r = Some (JObj props) /\
       obj_get props "status" = Some (JStr "accepted")).
Proof.
  intros Hc Hw Hok.
  destruct (constructor_inv config self Hc) as (_ & Hri & Hro & _).
  unfold submitDeposit, bind, postJson.
  rewrite (dispatch_resolve self Hri Hro _ w r rest Hw).
  cbn [dispatch_outcome]. rewrite Hok.
  unfold decode; cbn [res_data].
  destruct (resp_json r) as [v |].
  - destruct v as [| | b | n | s | items | props]; cbn [truthy negb].
    1-2: (exists false; split; [reflexivity |];
          split; [discriminate | intros (p & Hp & _); discriminate]).
    + destruct b; exists false; (split; [reflexivity |]);
        (split; [discriminate | intros (p & Hp & _); discriminate]).
    + destruct (n =? 0); exists false; (split; [reflexivity |]);
        (split; [discriminate | intros (p & Hp & _); discriminate]).
    + destruct (String.eqb s ""); exists false; (split; [reflexivity |]);
        (split; [discriminate | intros (p & Hp & _); discriminate]).
    + exists false. split; [reflexivity |].
      split; [discriminate | intros (p & Hp & _); discriminate].
    + exists (strict_eq_str (js_get (JObj props) "status") "accepted").
      split; [reflexivity |]. cbn [js_get].
      destruct (obj_get props "status") as [x |] eqn:E.
      * split.
        -- intros Hb. exists props. split; [reflexivity |].
           destruct x; try discriminate. cbn in Hb.
           apply String.eqb_eq in Hb. subst. exact E.
        -- intros (p & Hp & Hs). injection Hp as <-. rewrite E in Hs.
           injection Hs as ->. reflexivity.
      * split; [discriminate |].
        intros (p & Hp & Hs). injection Hp as <-. rewrite E in Hs. discriminate.
  - exists false. split; [reflexivity |].
    split; [discriminate | intros (p & Hp & _); discriminate].
Qed.

(** ** Token lookup: address or symbol *)

Lemma is_hex_digit_spec (c : ascii) :
  is_hex_digit c = true <-> In c hex_digit_chars.
Proof.
  assert (H : is_hex_digit c = existsb (Ascii.eqb c) hex_digit_chars)
    by (destruct c as [[] [] [] [] [] [] [] []]; reflexivity).
  rewrite H, existsb_exists. split.
  - intros (x & Hin & Heq). apply Ascii.eqb_eq in Heq. subst. exact Hin.
  - intros Hin. exists c. split; [exact Hin | apply Ascii.eqb_refl].
Qed.

Lemma isHexLike_spec (s : string) : isHexLike s = true <-> HexPattern s.
Proof.
  split.
  - destruct s as [| c0 [| c1 digits]]; try discriminate.
    cbn [isHexLike]. intros H.
    apply andb_true_iff in H as [H Hall].
    apply andb_true_iff in H as [H Hne].
    apply andb_true_iff in H as [H0 H1].
    apply Ascii.eqb_eq in H0, H1. subst.
    exists digits. split; [reflexivity |]. split.
    + apply negb_true_iff, String.eqb_neq in Hne. exact Hne.
    + intros c Hin. apply is_hex_digit_spec.
      rewrite forallb_forall in Hall. apply Hall, Hin.
  - intros (digits & -> & Hne & Hall). cbn.
    apply String.eqb_neq in Hne. rewrite Hne. cbn [negb andb].
    apply forallb_forall. intros c Hin. apply is_hex_digit_spec, Hall, Hin.
Qed.

Lemma base_not_empty (config : HyperstreamClientConfig) (self : Fetch) :
  HyperstreamClient_constructor config = inr self ->
  exists b, baseURL self = Some b /\ b <> "" /\
            forall url, fullUrl_of self url = b ++ url.
Proof.
  intros Hc. destruct (constructor_inv config self Hc) as (Hne & _ & _ & Hb).
  eexists. split; [exact Hb |].
  assert (Hnb : (if String.eqb (strip_trailing_slashes (baseUrl config)) ""
                 then baseUrl config
                 else strip_trailing_slashes (baseUrl config)) <> "").
  { destruct (String.eqb _ "") eqn:E; [exact Hne | apply String.eqb_neq, E]. }
  split; [exact Hnb |].
  intros url. unfold fullUrl_of. rewrite Hb.
  apply String.eqb_neq in Hnb. rewrite Hnb. reflexivity.
Qed.

(** C9. [getToken] asks for the address path exactly when the identifier is
    [0x] followed by one or more hex digits, and for the symbol path
    otherwise. *)
Theorem getToken_address_or_symbol_path
    (config : HyperstreamClientConfig) (self : Fetch)
    (chainId : Z) (identifier : string) (w : World) :
  HyperstreamClient_constructor config = inr self ->
  exists b call,
    baseURL self = Some b /\
    calls (snd (getToken self chainId identifier w)) = (calls w ++ [call])%list /\
    (HexPattern identifier ->
       input call =
       b ++ "/v1/tokens/" ++ number_to_string chainId ++ "/"
         ++ encodeURIComponent identifier) /\
    (~ HexPattern identifier ->
       input call =
       b ++ "/v1/tokens/" ++ number_to_string chainId ++ "/symbol/"
         ++ encodeURIComponent identifier).
Proof.
  intros Hc.
  destruct (constructor_inv config self Hc) as (_ & Hri & Hro & _).
  destruct (base_not_empty config self Hc) as (b & Hb & _ & Hurl).
  pose proof (isHexLike_spec identifier) as Hspec.
  unfold getToken, getJson.
  set (path := if isHexLike identifier then _ else _).
  set (rc := {| rc_path := path; rc_method := Some "GET"; rc_body := JUndefined;
                rc_query := None; rc_headers := None |}).
  exists b, (dispatch_call self rc). split; [exact Hb |]. split.
  - pose proof (dispatch_logs self Hri Hro rc w) as Hlog.
    unfold try_catch.
    destruct (dispatchRequest self rc w) as [[t | v] w']; cbn [snd] in *;
      [| exact Hlog].
    destruct t as [e |]; [| exact Hlog].
    destruct ((err_status e =? 404) || (err_status e =? 400)); exact Hlog.
  - assert (Hin : input (dispatch_call self rc) = b ++ path).
    { unfold dispatch_call; cbn [input]. rewrite Hurl. f_equal.
      unfold rc, path; cbn [rc_path rc_query].
      destruct (isHexLike identifier); reflexivity. }
    rewrite Hin. unfold path. split.
    + intros Hhex. apply Hspec in Hhex. rewrite Hhex. reflexivity.
    + intros Hnot. destruct (isHexLike identifier) eqn:E; [| reflexivity].
      exfalso. apply Hnot, Hspec. reflexivity.
Qed.

(** ** The base address *)

Lemma not_ends_with_slash_empty : ~ ends_with_slash "".
Proof. intros [[| c p] H]; discriminate. Qed.

Lemma strip_spec (s : string) : StrippedOf s (strip_trailing_slashes s).
Proof.
  induction s as [| c rest [[n Hn] Hend]].
  - split; [exists O; reflexivity | exact not_ends_with_slash_empty].
  - cbn [strip_trailing_slashes].
    destruct (strip_trailing_slashes rest) as [| k kept] eqn:E.
    + cbn [append] in Hn. destruct (Ascii.eqb c slash) eqn:Ec.
      * apply Ascii.eqb_eq in Ec. subst c. split.
        -- exists (S n). cbn. rewrite Hn. reflexivity.
        -- exact not_ends_with_slash_empty.
      * split.
        -- exists n. cbn. rewrite Hn. reflexivity.
        -- intros [[| c' p] H]; cbn in H.
           ++ injection H as H. subst c. rewrite Ascii.eqb_refl in Ec. discriminate.
           ++ injection H as _ H. destruct p; discriminate.
    + split.
      * exists n. cbn [append]. rewrite Hn. reflexivity.
      * intros [[| c' p] H]; cbn in H; [discriminate |].
        injection H as _ H. apply Hend. exists p. exact H.
Qed.

Lemma strip_slashes (n : nat) : strip_trailing_slashes (slashes n) = "".
Proof.
  induction n as [| n IH]; [reflexivity |].
  cbn [slashes strip_trailing_slashes]. rewrite IH. reflexivity.
Qed.

Lemma strip_empty_iff (s : string) :
  strip_trailing_slashes s = "" <-> exists n, s = slashes n.
Proof.
  split.
  - intros H. destruct (strip_spec s) as [[n Hn] _]. rewrite H in Hn.
    exists n. exact Hn.
  - intros [n ->]. apply strip_slashes.
Qed.

(** C7, as the code has it. A non-empty configured base address is kept
    with its trailing slashes stripped, unless it consists of slashes only,
    in which case it is kept as configured; registering interceptors leaves
    it as it is, and every dispatch goes to that base followed by the
    path. *)
Theorem base_address_stripped_unless_only_slashes
    (config : HyperstreamClientConfig) :
  baseUrl config <> "" ->
  exists self b,
    HyperstreamClient_constructor config = inr self /\
    baseURL self = Some b /\
    ((forall n, baseUrl config <> slashes n) -> StrippedOf (baseUrl config) b) /\
    ((exists n, baseUrl config = slashes n) -> b = baseUrl config) /\
    (forall i, baseURL (addRequestInterceptor self i) = Some b) /\
    (forall i, baseURL (addResponseInterceptor self i) = Some b) /\
    (forall rc w,
       exists call,
         calls (snd (dispatchRequest self rc w)) = (calls w ++ [call])%list /\
         input call = b ++ buildPathWithQuery (rc_path rc) (rc_query rc)).
Proof.
  intros Hne.
  destruct (constructor_total config Hne) as [self Hc].
  destruct (constructor_inv config self Hc) as (_ & Hri & Hro & Hb).
  destruct (base_not_empty config self Hc) as (b & Hb' & _ & Hurl).
  exists self, b. split; [exact Hc |]. split; [exact Hb' |].
  rewrite Hb in Hb'. injection Hb' as Hb'.
  split; [| split; [| split; [| split]]].
  - intros Hnot. subst b.
    destruct (String.eqb _ "") eqn:E.
    + apply String.eqb_eq, strip_empty_iff in E. destruct E as [n E].
      exfalso. exact (Hnot n E).
    + apply strip_spec.
  - intros Hall. apply strip_empty_iff in Hall. subst b. rewrite Hall. reflexivity.
  - intros i. cbn. rewrite Hb. f_equal. exact Hb'.
  - intros i. cbn. rewrite Hb. f_equal. exact Hb'.
  - intros rc w. exists (dispatch_call self rc). split.
    + apply dispatch_logs; assumption.
    + unfold dispatch_call; cbn [input]. apply Hurl.
Qed.

(** C7 as stated fails for the base address [/]: stripping would leave the
    empty string, and the constructor keeps [/] instead. *)
Lemma base_address_slash_is_kept :
  let config := mkConfig "/" None None in
  baseUrl config <> "" /\
  exists self,
    HyperstreamClient_constructor config = inr self /\
    baseURL self = Some "/" /\
    ~ base_address_stripped config self.
Proof.
  cbn. split; [discriminate |].
  eexists. split; [reflexivity |]. split; [reflexivity |].
  intros (b & Hb & _ & Hend). cbn in Hb. injection Hb as <-.
  apply Hend. exists "". reflexivity.
Qed.

(** ** Path and query *)

Lemma append_empty_r (s : string) : s ++ "" = s.
Proof. induction s as [| c s IH]; [reflexivity |]. cbn. rewrite IH. reflexivity. Qed.

Lemma append_eq_empty (s t : string) : s ++ t = "" -> s = "".
Proof. destruct s; [reflexivity | discriminate]. Qed.

Lemma params_set_fresh (params : Props string) (k v : string) :
  ~ In k (map fst params) -> params_set params k v = (params ++ [(k, v)])%list.
Proof.
  induction params as [| [k' x] rest IH]; intros Hfresh; [reflexivity |].
  cbn [params_set]. destruct (String.eqb k' k) eqn:E.
  - apply String.eqb_eq in E. exfalso. apply Hfresh. left. exact E.
  - cbn [app]. f_equal. apply IH. intros Hin. apply Hfresh. right. exact Hin.
Qed.

(** On entries with distinct keys, as [Object.entries] gives them, the loop
    over [params.set] collects exactly the non-nullish entries, in order. *)
Lemma query_loop (entries : Props JsVal) :
  forall acc : Props string,
    NoDup (map fst entries) ->
    (forall k, In k (map fst entries) -> ~ In k (map fst acc)) ->
    fold_left (fun params kv =>
                 if is_nullish (snd kv) then params
                 else params_set params (fst kv) (js_to_string (snd kv)))
              entries acc
    = (acc ++ query_pairs entries)%list.
Proof.
  induction entries as [| [k v] rest IH]; intros acc Hnd Hfresh.
  - cbn. rewrite app_nil_r. reflexivity.
  - cbn [map fst] in Hnd. inversion Hnd as [| ? ? Hk Hrest]; subst.
    cbn [fold_left fst snd]. unfold query_pairs. cbn [filter snd].
    destruct (is_nullish v) eqn:Ev; cbn [negb].
    + apply IH; [exact Hrest |].
      intros k' Hin. apply Hfresh. right. exact Hin.
    + rewrite params_set_fresh by (apply Hfresh; left; reflexivity).
      rewrite IH; [| exact Hrest |].
      * cbn [map fst snd]. rewrite <- app_assoc. reflexivity.
      * intros k' Hin. rewrite map_app, in_app_iff. cbn.
        intros [Hacc | [Heq | []]].
        -- revert Hacc. apply Hfresh. right. exact Hin.
        -- subst k'. exact (Hk Hin).
Qed.

Lemma params_toString_nonempty (pairs : Props string) :
  pairs <> [] -> params_toString pairs <> "".
Proof.
  destruct pairs as [| [k v] rest]; [contradiction |]. intros _.
  unfold params_toString. cbn [map join fst snd].
  destruct (map _ rest); intros H.
  - destruct (form_urlencode k); discriminate H.
  - apply append_eq_empty in H.
    destruct (form_urlencode k); discriminate H.
Qed.

(** C8, as the code has it. A path without a leading slash gets exactly
    one; a path that starts with a slash, or with several, is sent as it
    is.  Of a supplied query, the entries with an undefined or null value
    are left out, the others are converted to strings, and [?] with the
    encoded string is appended only when an entry remains. *)
Theorem path_slash_added_query_appended (path : string) (query : option (Props JsVal)) :
  NoDup (map fst (or_empty query)) ->
  exists path_part query_part,
    buildPathWithQuery path query = path_part ++ query_part /\
    (startsWith path "/" = true -> path_part = path) /\
    (startsWith path "/" = false ->
       path_part = "/" ++ path /\ one_leading_slash path_part) /\
    (query = None -> query_part = "") /\
    (forall entries, query = Some entries ->
       (query_pairs entries = [] -> query_part = "") /\
       (query_pairs entries <> [] ->
          query_part = "?" ++ params_toString (query_pairs entries) /\
          params_toString (query_pairs entries) <> "")).
Proof.
  intros Hnd.
  exists (if startsWith path "/" then path else "/" ++ path).
  exists (match query with
          | None => ""
          | Some entries =>
              if String.eqb (params_toString (query_pairs entries)) "" then ""
              else "?" ++ params_toString (query_pairs entries)
          end).
  split; [| split; [| split; [| split]]].
  - unfold buildPathWithQuery. destruct query as [entries |].
    + rewrite (query_loop entries [] Hnd) by (intros k _ []).
      cbn [app]. destruct (String.eqb _ ""); [| reflexivity].
      rewrite append_empty_r. reflexivity.
    + rewrite append_empty_r. reflexivity.
  - intros ->. reflexivity.
  - intros Hs. rewrite Hs. split; [reflexivity |].
    exists path. split; [reflexivity | exact Hs].
  - intros ->. reflexivity.
  - intros entries ->. split.
    + intros ->. reflexivity.
    + intros Hne. pose proof (params_toString_nonempty _ Hne) as Hqs.
      split; [| exact Hqs].
      apply String.eqb_neq in Hqs. rewrite Hqs. reflexivity.
Qed.

(** C8 as stated fails for the path [//x]: it is sent unchanged, with two
    leading slashes. *)
Lemma double_slash_path_is_kept :
  buildPathWithQuery "//x" None = "//x" /\
  ~ one_leading_slash (buildPathWithQuery "//x" None).
Proof.
  split; [reflexivity |].
  intros (rest & H & Hs). cbn in H. injection H as <-. discriminate.
Qed.

(** C4 as stated fails when the network call throws a value that is not an
    [Error], here the string [boom] given as an abort reason: the surfaced
    message is the fixed text, not the failure's description. *)
Lemma thrown_string_gets_fixed_message :
  let f := FailValue (JStr "boom") in
  let w := mkWorld [Reject (ThrowOther f)] [] in
  exists e,
    fst (getChains test_client w) = inl (ThrowApi e) /\
    err_message e = "Hyperstream transport request failed" /\
    ~ transport_error_shape f e.
Proof.
  cbn zeta. eexists. split; [reflexivity |]. split; [reflexivity |].
  intros (_ & _ & Hm & _). discriminate Hm.
Qed.

(** ** Worked instances, on the scenarios of the test suite *)

Lemma test_client_constructed :
  HyperstreamClient_constructor test_config = inr test_client.
Proof. reflexivity. Qed.

Lemma searchTokens_one_batch_per_page_witness :
  searchTokens 3 test_client search_request
    (mkWorld [Resolve first_page; Resolve last_page] []) =
  Some {| batches := map batch_of ([first_page] ++ [last_page]);
          failure := None;
          final :=
            mkWorld []
              ([] ++
               map (fun c => dispatch_call test_client (search_config search_request c))
                   (js_get (JObj search_request) "cursor" :: map cursor_of [first_page]))%list |}.
Proof.
  apply (searchTokens_one_batch_per_page test_config test_client search_request
           [first_page] last_page [] (mkWorld [Resolve first_page; Resolve last_page] []) 3).
  - reflexivity.
  - reflexivity.
  - reflexivity.
  - reflexivity.
  - reflexivity.
  - reflexivity.
  - cbn. lia.
Defined.

Lemma searchTokens_fails_with_page_error_witness :
  searchTokens 2 test_client search_request
    (mkWorld [Resolve first_page; Resolve server_error; Resolve last_page] []) =
  Some {| batches := map batch_of [first_page];
          failure := Some (ThrowApi (api_error_of_result (decode server_error)));
          final :=
            mkWorld [Resolve last_page]
              ([] ++
               map (fun c => dispatch_call test_client (search_config search_request c))
                   (js_get (JObj search_request) "cursor" :: map cursor_of [first_page]))%list |}.
Proof.
  apply (searchTokens_fails_with_page_error test_config test_client search_request
           [first_page] (Resolve server_error) _ [Resolve last_page]
           (mkWorld [Resolve first_page; Resolve server_error; Resolve last_page] []) 2).
  - reflexivity.
  - reflexivity.
  - reflexivity.
  - apply fails_by_status. reflexivity.
  - reflexivity.
  - cbn. lia.
Defined.

Lemma non_2xx_error_status_message_code_witness :
  exists e,
    fst (dispatchRequest test_client get_chains (mkWorld [Resolve server_error] []))
      = inl (ThrowApi e) /\
    err_status e = 500 /\ err_message e = "Boom" /\ err_code e = JStr "ServerError".
Proof.
  destruct (non_2xx_error_status_message_code test_config test_client get_chains
              (mkWorld [Resolve server_error] []) server_error [])
    as (e & He & Hs & Hm & _ & _ & _ & Hcode & _).
  - reflexivity.
  - reflexivity.
  - cbn. lia.
  - exists e. split; [exact He |]. split; [exact Hs |].
    split; [apply Hm; reflexivity | apply Hcode; reflexivity].
Defined.

Lemma transport_failure_normalised_witness :
  exists e,
    fst (dispatchRequest test_client get_chains (mkWorld [Reject connection_refused] []))
      = inl (ThrowApi e) /\
    err_status e = 0 /\ err_code e = JStr "TransportError" /\
    err_message e = "fetch failed".
Proof.
  destruct (transport_failure_normalised test_config test_client get_chains
              (mkWorld [Reject connection_refused] []) connection_refused [])
    as (e & He & Hf & _).
  - reflexivity.
  - reflexivity.
  - destruct (Hf _ eq_refl) as (Hs & Hc & _ & Hm & _).
    exists e. split; [exact He |]. split; [exact Hs |]. split; [exact Hc |].
    apply (Hm "TypeError"). reflexivity.
Defined.

Lemma lookup_absence_policies_witness :
  fst (getToken test_client 42161 "0x0000000000000000000000000000000000000002"
         (mkWorld [Resolve not_found] [])) = inr JNull /\
  fst (getIntentByDeposit test_client 42161 "0x02" (mkWorld [Resolve not_found] []))
    = inr JNull.
Proof.
  destruct (lookup_absence_policies test_config test_client 42161
              "0x0000000000000000000000000000000000000002" "0x02"
              (mkWorld [Resolve not_found] []) not_found [])
    as (_ & Htoken & _ & Hdeposit & _).
  - reflexivity.
  - reflexivity.
  - reflexivity.
  - split; [apply Htoken; left; reflexivity | apply Hdeposit; reflexivity].
Defined.

Lemma submitDeposit_true_iff_accepted_witness :
  exists b,
    fst (submitDeposit test_client (JObj [("intentId", JStr "0x01")])
           (mkWorld [Resolve accepted] [])) = inr b /\
    (b = true <->
     exists props,
       resp_json accepted = Some (JObj props) /\
       obj_get props "status" = Some (JStr "accepted")).
Proof.
  apply (submitDeposit_true_iff_accepted test_config test_client
           (JObj [("intentId", JStr "0x01")]) (mkWorld [Resolve accepted] []) accepted []).
  - reflexivity.
  - reflexivity.
  - reflexivity.
Defined.

Lemma base_address_stripped_unless_only_slashes_witness :
  exists self b,
    HyperstreamClient_constructor (mkConfig "https://api.test.hyperstream.xyz//" None None)
      = inr self /\
    baseURL self = Some b /\
    StrippedOf "https://api.test.hyperstream.xyz//" b.
Proof.
  destruct (base_address_stripped_unless_only_slashes
              (mkConfig "https://api.test.hyperstream.xyz//" None None))
    as (self & b & Hc & Hb & Hstrip & _).
  - discriminate.
  - exists self, b. split; [exact Hc |]. split; [exact Hb |].
    apply Hstrip. intros [| n]; discriminate.
Defined.

Lemma path_slash_added_query_appended_witness :
  exists path_part query_part,
    buildPathWithQuery "v1/tokens"
      (Some [("q", JStr "usd coin"); ("cursor", JUndefined); ("limit", JNum 5)])
      = path_part ++ query_part /\
    path_part = "/v1/tokens" /\
    query_part = "?q=usd+coin&limit=5".
Proof.
  destruct (path_slash_added_query_appended "v1/tokens"
              (Some [("q", JStr "usd coin"); ("cursor", JUndefined); ("limit", JNum 5)]))
    as (pp & qp & Hsent & _ & Hpath & _ & Hquery).
  - cbn. repeat constructor; cbn; intuition discriminate.
  - exists pp, qp. split; [exact Hsent |].
    split; [apply Hpath; reflexivity |].
    destruct (Hquery _ eq_refl) as [_ Hq].
    apply Hq. discriminate.
Defined.

Lemma getToken_address_or_symbol_path_witness :
  exists b call,
    baseURL test_client = Some b /\
    calls (snd (getToken test_client 42161 "0xAb12" (mkWorld [] [])))
      = ([] ++ [call])%list /\
    input call = b ++ "/v1/tokens/42161/0xAb12".
Proof.
  destruct (getToken_address_or_symbol_path test_config test_client 42161 "0xAb12"
              (mkWorld [] []))
    as (b & call & Hb & Hcalls & Hhex & _).
  - reflexivity.
  - exists b, call. split; [exact Hb |]. split; [exact Hcalls |].
    apply Hhex. exists "Ab12". split; [reflexivity |]. split; [discriminate |].
    intros c Hin. cbn in Hin. cbn. intuition.
Defined.

Lemma cursor_zero_continues_nullish_stops_witness :
  fst (fst (searchTokens_next test_client search_request (GenSuspended zero_cursor_page)
              (mkWorld [Resolve last_page] []))) <> inr IterDone.
Proof.
  destruct (cursor_zero_continues_nullish_stops test_config test_client search_request
              zero_cursor_page (mkWorld [Resolve last_page] []))
    as (Hzero & _).
  - reflexivity.
  - reflexivity.
  - apply Hzero. reflexivity.
Defined.


(** * Further properties of the pipeline *)

(** ** Plain objects: lookup after assignment and spread *)

Lemma obj_get_set_same {A : Type} (props : Props A) (k : string) (v : A) :
  obj_get (obj_set props k v) k = Some v.
Proof.
  induction props as [| [k' x] rest IH]; cbn.
  - rewrite String.eqb_refl. reflexivity.
  - destruct (String.eqb k' k) eqn:E; cbn; rewrite E; [reflexivity | exact IH].
Qed.

Lemma obj_get_set_other {A : Type} (props : Props A) (k k' : string) (v : A) :
  k <> k' -> obj_get (obj_set props k v) k' = obj_get props k'.
Proof.
  intros Hne. induction props as [| [k0 x] rest IH]; cbn.
  - apply String.eqb_neq in Hne. rewrite Hne. reflexivity.
  - destruct (String.eqb k0 k) eqn:E; cbn.
    + apply String.eqb_eq in E. subst k0.
      apply String.eqb_neq in Hne. rewrite Hne. reflexivity.
    + destruct (String.eqb k0 k'); [reflexivity | exact IH].
Qed.

Lemma obj_set_keys {A : Type} (props : Props A) (k : string) (v : A) (k' : string) :
  In k' (map fst (obj_set props k v)) -> k' = k \/ In k' (map fst props).
Proof.
  induction props as [| [k0 x] rest IH]; cbn.
  - intros [H | []]. left. symmetry. exact H.
  - destruct (String.eqb k0 k) eqn:E; cbn.
    + intros [H | H]; right; [left | right]; assumption.
    + intros [H | H]; [right; left; exact H |].
      destruct (IH H) as [H' | H']; [left | right; right]; assumption.
Qed.

Lemma obj_set_nodup {A : Type} (props : Props A) (k : string) (v : A) :
  NoDup (map fst props) -> NoDup (map fst (obj_set props k v)).
Proof.
  induction props as [| [k0 x] rest IH]; cbn; intros Hnd.
  - constructor; [intros [] | constructor].
  - inversion Hnd as [| ? ? Hk Hrest]; subst.
    destruct (String.eqb k0 k) eqn:E; cbn.
    + constructor; assumption.
    + constructor; [| apply IH, Hrest].
      intros Hin. apply obj_set_keys in Hin as [Heq | Hin]; [| exact (Hk Hin)].
      subst k0. rewrite String.eqb_refl in E. discriminate.
Qed.

Lemma obj_spread_nodup {A : Type} (b a : Props A) :
  NoDup (map fst a) -> NoDup (map fst (obj_spread a b)).
Proof.
  unfold obj_spread. revert a.
  induction b as [| [k v] rest IH]; intros a Hnd; cbn; [exact Hnd |].
  apply IH, obj_set_nodup, Hnd.
Qed.

Lemma obj_get_none_not_in {A : Type} (props : Props A) (k : string) :
  obj_get props k = None <-> ~ In k (map fst props).
Proof.
  induction props as [| [k0 x] rest IH]; cbn.
  - split; [intros _ [] | reflexivity].
  - destruct (String.eqb k0 k) eqn:E.
    + apply String.eqb_eq in E. split; [discriminate |].
      intros H. exfalso. apply H. left. exact E.
    + apply String.eqb_neq in E. rewrite IH. split.
      * intros H [Heq | Hin]; [exact (E Heq) | exact (H Hin)].
      * intros H Hin. apply H. right. exact Hin.
Qed.

(** In [{ ...a, ...b }] a key of [b] wins over the same key of [a]. *)
Lemma obj_get_spread {A : Type} (b a : Props A) (k : string) :
  NoDup (map fst b) ->
  obj_get (obj_spread a b) k =
  match obj_get b k with
  | Some v => Some v
  | None => obj_get a k
  end.
Proof.
  unfold obj_spread. revert a.
  induction b as [| [k0 v0] rest IH]; intros a Hnd; cbn [fold_left fst snd obj_get].
  - reflexivity.
  - inversion Hnd as [| ? ? Hk Hrest]; subst.
    rewrite (IH _ Hrest).
    destruct (String.eqb k0 k) eqn:E.
    + apply String.eqb_eq in E. subst k0.
      apply obj_get_none_not_in in Hk. rewrite Hk.
      apply obj_get_set_same.
    + apply String.eqb_neq in E.
      destruct (obj_get rest k); [reflexivity |].
      apply obj_get_set_other, E.
Qed.

(** ** Dispatch with interceptors registered *)

Lemma run_interceptors_chain {A : Type} (list : list (A -> Thrown + A)) (x : A) (w : World) :
  run_interceptors list x w = (chain list x, w).
Proof.
  revert x. induction list as [| i rest IH]; intros x; [reflexivity |].
  cbn [run_interceptors chain]. unfold bind, lift.
  destruct (i x) as [t | y]; [reflexivity | apply IH].
Qed.

Lemma request_chain (self : Fetch) (url : string) (options : RequestInit) (w : World) :
  request self url options w =
  match chain (requestInterceptors self) (fullUrl_of self url, finalInit_of self options) with
  | inl t => (inl t, w)
  | inr sent =>
      match fetchImpl (fst sent) (snd sent) w with
      | (inl t, w') => (inl t, w')
      | (inr r, w') =>
          match chain (responseInterceptors self) r with
          | inl t => (inl t, w')
          | inr r' => (inr (decode r'), w')
          end
      end
  end.
Proof.
  unfold request, bind. rewrite run_interceptors_chain.
  destruct (chain (requestInterceptors self) _) as [t | sent]; [reflexivity |].
  destruct (fetchImpl (fst sent) (snd sent) w) as [[t | r] w']; [reflexivity |].
  rewrite run_interceptors_chain.
  destruct (chain (responseInterceptors self) r); reflexivity.
Qed.

Lemma dispatch_chain (self : Fetch) (rc : ClientRequestConfig) (w : World) :
  dispatchRequest self rc w =
  match chain (requestInterceptors self)
          (input (dispatch_call self rc), init (dispatch_call self rc)) with
  | inl t => (dispatch_outcome (inl t), w)
  | inr sent =>
      match fetchImpl (fst sent) (snd sent) w with
      | (inl t, w') => (dispatch_outcome (inl t), w')
      | (inr r, w') => (dispatch_outcome (chain (responseInterceptors self) r), w')
      end
  end.
Proof.
  unfold dispatchRequest, executeRequest, dispatch_call, bind.
  destruct (String.eqb _ "GET"); cbn [input init];
    unfold transport_get, transport_post, try_catch, get, post;
    rewrite request_chain; cbn [init_headers body or_empty].
  - destruct (chain (requestInterceptors self) _) as [t | sent]; [reflexivity |].
    destruct (fetchImpl (fst sent) (snd sent) w) as [[t | r] w']; [reflexivity |].
    destruct (chain (responseInterceptors self) r) as [t | r']; [reflexivity |].
    cbn [dispatch_outcome]. change (res_ok (decode r')) with (resp_ok r').
    destruct (resp_ok r'); reflexivity.
  - destruct (chain (requestInterceptors self) _) as [t | sent]; [reflexivity |].
    destruct (fetchImpl (fst sent) (snd sent) w) as [[t | r] w']; [reflexivity |].
    destruct (chain (responseInterceptors self) r) as [t | r']; [reflexivity |].
    cbn [dispatch_outcome]. change (res_ok (decode r')) with (resp_ok r').
    destruct (resp_ok r'); reflexivity.
Qed.

(** X1. When a request interceptor throws, the dispatch fails with the
    normalised error and the network is never called: no call is recorded
    and no server answer is consumed. *)
Theorem request_interceptor_failure_skips_fetch
    (self : Fetch) (rc : ClientRequestConfig) (w : World) (t : Thrown) :
  chain (requestInterceptors self)
        (input (dispatch_call self rc), init (dispatch_call self rc)) = inl t ->
  dispatchRequest self rc w = (inl (ThrowApi (normalizeTransportError t)), w).
Proof. intros H. rewrite dispatch_chain, H. reflexivity. Qed.

(** X2. With interceptors registered, the network is called with the URL
    and options the request interceptors hand on, and the answer is judged
    after the response interceptors have run, in registration order: their
    result decides between value and error, and a response interceptor that
    throws gives the normalised error although the call was made. *)
Theorem interceptors_frame_the_fetch
    (self : Fetch) (rc : ClientRequestConfig) (w : World)
    (sent : string * RequestInit) (r : Response) (rest : list FetchOutcome) :
  chain (requestInterceptors self)
        (input (dispatch_call self rc), init (dispatch_call self rc)) = inr sent ->
  responses w = Resolve r :: rest ->
  dispatchRequest self rc w =
  (match chain (responseInterceptors self) r with
   | inl t => inl (ThrowApi (normalizeTransportError t))
   | inr r' =>
       if resp_ok r' then inr (payload_of r')
       else inl (ThrowApi (api_error_of_result (decode r')))
   end,
   mkWorld rest (calls w ++ [mkCall (fst sent) (snd sent)])%list).
Proof.
  intros Hsent Hw. rewrite dispatch_chain, Hsent.
  unfold fetchImpl. rewrite Hw.
  destruct (chain (responseInterceptors self) r); reflexivity.
Qed.


(** X4. The lookups never surface the statuses they read as absence:
    whatever the network does, an error thrown by [getToken] has a status
    other than 404 and 400, and one thrown by [getIntentByDeposit] a status
    other than 404. *)
Theorem lookups_never_throw_absence_statuses
    (self : Fetch) (chainId : Z) (s : string) (w : World) (e : HyperstreamApiError) :
  (fst (getToken self chainId s w) = inl (ThrowApi e) ->
     err_status e <> 404 /\ err_status e <> 400) /\
  (fst (getIntentByDeposit self chainId s w) = inl (ThrowApi e) ->
     err_status e <> 404).
Proof.
  split.
  - unfold getToken, try_catch.
    destruct (getJson self _ w) as [[[e0 | f] | v] w']; cbn; try discriminate.
    destruct ((err_status e0 =? 404) || (err_status e0 =? 400)) eqn:E;
      cbn; [discriminate |].
    intros H. injection H as <-.
    apply orb_false_iff in E as [E1 E2].
    apply Z.eqb_neq in E1, E2. split; assumption.
  - unfold getIntentByDeposit, try_catch.
    destruct (getJson self _ w) as [[[e0 | f] | v] w']; cbn; try discriminate.
    destruct (err_status e0 =? 404) eqn:E; cbn; [discriminate |].
    intros H. injection H as <-. apply Z.eqb_neq in E. exact E.
Qed.

(** ** Success and failure through the facade *)

(** X5. A 2xx answer is returned as decoded, with no validation and no
    change: the decoded JSON body, or [undefined] when the body is not
    JSON; the lookups do the same, their absence rule only reads errors. *)
Theorem success_returns_decoded_body
    (config : HyperstreamClientConfig) (self : Fetch) (rc : ClientRequestConfig)
    (chainId : Z) (s : string) (payload : JsVal)
    (w : World) (r : Response) (rest : list FetchOutcome) :
  HyperstreamClient_constructor config = inr self ->
  responses w = Resolve r :: rest ->
  resp_ok r = true ->
  let value := match resp_json r with Some v => v | None => JUndefined end in
  fst (dispatchRequest self rc w) = inr value /\
  fst (quotes self payload w) = inr value /\
  fst (getChains self w) = inr value /\
  fst (getIntentStatus self s w) = inr value /\
  fst (getToken self chainId s w) = inr value /\
  fst (getIntentByDeposit self chainId s w) = inr value.
Proof.
  intros Hc Hw Hok value.
  destruct (constructor_inv config self Hc) as (_ & Hri & Hro & _).
  unfold quotes, getChains, getIntentStatus, getToken, getIntentByDeposit,
    try_catch, getJson, postJson.
  rewrite !(dispatch_resolve self Hri Hro _ w r rest Hw).
  cbn [dispatch_outcome fst]. rewrite Hok.
  repeat split; reflexivity.
Qed.

(** X6. Outside the two lookups there is no absence rule: on any answer
    outside 200-299, 404 included, [quotes], [getChains], [getIntentStatus]
    and [submitDeposit] throw the error of the dispatch; [submitDeposit]
    does not turn it into [false]. *)
Theorem other_operations_throw_on_every_non_2xx
    (config : HyperstreamClientConfig) (self : Fetch) (s : string) (payload : JsVal)
    (w : World) (r : Response) (rest : list FetchOutcome) :
  HyperstreamClient_constructor config = inr self ->
  responses w = Resolve r :: rest ->
  resp_ok r = false ->
  let thrown := ThrowApi (api_error_of_result (decode r)) in
  fst (quotes self payload w) = inl thrown /\
  fst (getChains self w) = inl thrown /\
  fst (getIntentStatus self s w) = inl thrown /\
  fst (submitDeposit self payload w) = inl thrown.
Proof.
  intros Hc Hw Hok thrown.
  destruct (constructor_inv config self Hc) as (_ & Hri & Hro & _).
  unfold quotes, getChains, getIntentStatus, submitDeposit, bind, getJson, postJson.
  rewrite !(dispatch_resolve self Hri Hro _ w r rest Hw).
  cbn [dispatch_outcome fst]. rewrite Hok.
  repeat split; reflexivity.
Qed.

(** X7. The error for an answer outside 200-299 echoes the body: [details]
    is the body's [details] when it has one and the whole decoded body
    otherwise, the response body is kept as [causeResponseBody], and the
    request id is the [x-request-id] response header, [null] without it. *)
Theorem non_2xx_error_details_and_request_id
    (config : HyperstreamClientConfig) (self : Fetch) (rc : ClientRequestConfig)
    (w : World) (r : Response) (rest : list FetchOutcome) :
  HyperstreamClient_constructor config = inr self ->
  responses w = Resolve r :: rest ->
  resp_ok r = false ->
  exists e,
    fst (dispatchRequest self rc w) = inl (ThrowApi e) /\
    (is_nullish (js_get (payload_of r) "details") = false ->
       err_details e = DetailsValue (js_get (payload_of r) "details")) /\
    (is_nullish (js_get (payload_of r) "details") = true ->
       err_details e = DetailsValue (payload_of r)) /\
    err_causeResponseBody e = payload_of r /\
    err_requestId e = obj_get (resp_headers r) "x-request-id".
Proof.
  intros Hc Hw Hok.
  destruct (constructor_inv config self Hc) as (_ & Hri & Hro & _).
  exists (api_error_of_result (decode r)).
  rewrite (dispatch_resolve self Hri Hro rc w r rest Hw).
  cbn [dispatch_outcome fst]. rewrite Hok.
  split; [reflexivity |].
  unfold api_error_of_result, new_HyperstreamApiError, js_coalesce;
    cbn [err_details err_causeResponseBody err_requestId].
  fold (payload_of r).
  repeat split.
  - intros ->. reflexivity.
  - intros ->. reflexivity.
Qed.

(** ** Headers *)

Lemma constructed_headers_nodup (config : HyperstreamClientConfig) (self : Fetch) :
  HyperstreamClient_constructor config = inr self ->
  NoDup (map fst (headers self)).
Proof.
  unfold HyperstreamClient_constructor.
  destruct (String.eqb (baseUrl config) ""); [discriminate |].
  intros H. injection H as <-. cbn [Fetch_constructor headers fc_headers or_empty].
  assert (Hbase : NoDup (map fst (obj_spread (@nil (string * string))
                                    (or_empty (config_headers config)))))
    by (apply obj_spread_nodup; constructor).
  destruct (userAgent config) as [ua |]; [| exact Hbase].
  destruct (String.eqb ua ""); [exact Hbase | apply obj_set_nodup, Hbase].
Qed.

Lemma obj_get_spread_nil {A : Type} (b : Props A) (k : string) :
  NoDup (map fst b) -> obj_get (obj_spread [] b) k = obj_get b k.
Proof.
  intros Hnd. rewrite (obj_get_spread b [] k Hnd).
  destruct (obj_get b k); reflexivity.
Qed.

(** X8. Header precedence on the wire: a per-call header wins; without a
    per-call [Accept] the request asks for [application/json] whatever the
    client's default headers say, and a POST without a per-call
    [Content-Type] is sent as [application/json]; every other header is the
    client's default. *)
Theorem sent_headers_precedence
    (config : HyperstreamClientConfig) (self : Fetch) (rc : ClientRequestConfig)
    (w : World) :
  HyperstreamClient_constructor config = inr self ->
  NoDup (map fst (or_empty (rc_headers rc))) ->
  exists call sent,
    calls (snd (dispatchRequest self rc w)) = (calls w ++ [call])%list /\
    init_headers (init call) = Some sent /\
    (forall k v, obj_get (or_empty (rc_headers rc)) k = Some v ->
                 obj_get sent k = Some v) /\
    (obj_get (or_empty (rc_headers rc)) "Accept" = None ->
       obj_get sent "Accept" = Some "application/json") /\
    (rc_method rc = Some "POST" ->
     obj_get (or_empty (rc_headers rc)) "Content-Type" = None ->
       obj_get sent "Content-Type" = Some "application/json") /\
    (forall k, obj_get (or_empty (rc_headers rc)) k = None ->
               k <> "Accept" -> k <> "Content-Type" ->
               obj_get sent k = obj_get (headers self) k).
Proof.
  intros Hc Hnd.
  destruct (constructor_inv config self Hc) as (_ & Hri & Hro & _).
  pose proof (constructed_headers_nodup config self Hc) as Hdef.
  set (per_call := or_empty (rc_headers rc)) in *.
  set (accept := obj_spread [("Accept", "application/json")] per_call).
  assert (Haccept : forall k,
            obj_get accept k =
            match obj_get per_call k with
            | Some v => Some v
            | None => if String.eqb "Accept" k then Some "application/json" else None
            end).
  { intros k. unfold accept. rewrite (obj_get_spread per_call _ k Hnd). reflexivity. }
  assert (Hnd_accept : NoDup (map fst accept)).
  { apply obj_spread_nodup. repeat constructor. intros []. }
  set (typed := obj_spread [("Content-Type", "application/json")] accept).
  assert (Htyped : forall k,
            obj_get typed k =
            match obj_get accept k with
            | Some v => Some v
            | None => if String.eqb "Content-Type" k then Some "application/json" else None
            end).
  { intros k. unfold typed. rewrite (obj_get_spread accept _ k Hnd_accept). reflexivity. }
  assert (Hnd_typed : NoDup (map fst typed)).
  { apply obj_spread_nodup. repeat constructor. intros []. }
  exists (dispatch_call self rc).
  pose proof (dispatch_logs self Hri Hro rc w) as Hlog.
  unfold dispatch_call in *. fold per_call accept typed in Hlog |- *.
  destruct (String.eqb (match rc_method rc with Some m => m | None => "GET" end) "GET")
    eqn:Em; cbn [init init_headers finalInit_of or_empty] in *.
  - eexists. split; [exact Hlog |]. split; [reflexivity |].
    split; [| split; [| split]].
    + intros k v Hk. rewrite (obj_get_spread accept _ k Hnd_accept), Haccept, Hk.
      reflexivity.
    + intros Hk. rewrite (obj_get_spread accept _ _ Hnd_accept), Haccept, Hk.
      reflexivity.
    + intros Hpost. rewrite Hpost in Em. discriminate.
    + intros k Hk Ha _. rewrite (obj_get_spread accept _ k Hnd_accept), Haccept, Hk.
      apply not_eq_sym, String.eqb_neq in Ha. rewrite Ha.
      apply obj_get_spread_nil, Hdef.
  - eexists. split; [exact Hlog |]. split; [reflexivity |].
    split; [| split; [| split]].
    + intros k v Hk.
      rewrite (obj_get_spread typed _ k Hnd_typed), Htyped, Haccept, Hk.
      reflexivity.
    + intros Hk.
      rewrite (obj_get_spread typed _ _ Hnd_typed), Htyped, Haccept, Hk.
      reflexivity.
    + intros _ Hk.
      rewrite (obj_get_spread typed _ _ Hnd_typed), Htyped, Haccept, Hk.
      reflexivity.
    + intros k Hk Ha Ht.
      rewrite (obj_get_spread typed _ k Hnd_typed), Htyped, Haccept, Hk.
      apply not_eq_sym, String.eqb_neq in Ha, Ht. rewrite Ha, Ht.
      apply obj_get_spread_nil, Hdef.
Qed.

(** X9. The default headers of a new client are the configured ones, except
    that a non-empty [userAgent] becomes the [User-Agent] header and
    replaces a configured one. *)
Theorem user_agent_overrides_configured_header
    (config : HyperstreamClientConfig) (self : Fetch) :
  HyperstreamClient_constructor config = inr self ->
  NoDup (map fst (or_empty (config_headers config))) ->
  (forall ua, userAgent config = Some ua -> ua <> "" ->
     obj_get (headers self) "User-Agent" = Some ua) /\
  (userAgent config = None \/ userAgent config = Some "" ->
     obj_get (headers self) "User-Agent"
     = obj_get (or_empty (config_headers config)) "User-Agent") /\
  (forall k, k <> "User-Agent" ->
     obj_get (headers self) k = obj_get (or_empty (config_headers config)) k).
Proof.
  unfold HyperstreamClient_constructor.
  destruct (String.eqb (baseUrl config) ""); [discriminate |].
  intros H Hnd. injection H as <-.
  cbn [Fetch_constructor headers fc_headers or_empty].
  split; [| split].
  - intros ua -> Hne. apply String.eqb_neq in Hne. rewrite Hne.
    apply obj_get_set_same.
  - intros [-> | ->]; cbn; apply obj_get_spread_nil, Hnd.
  - intros k Hk. destruct (userAgent config) as [ua |].
    + destruct (String.eqb ua "").
      * apply obj_get_spread_nil, Hnd.
      * rewrite obj_get_set_other by (apply not_eq_sym, Hk).
        apply obj_get_spread_nil, Hnd.
    + apply obj_get_spread_nil, Hnd.
Qed.

(** ** The generator, whatever the server does *)

(** X10. A generator that has finished, normally or by throwing, is
    closed, and a closed generator answers every further [next()] with
    done, without a request; one that yielded is suspended on a page that
    is neither [null] nor [undefined]. *)
Theorem generator_closes_for_good
    (self : Fetch) (req : Props JsVal) (st : GenState) (w : World)
    (res : Thrown + IterResult) (st' : GenState) (w' : World) :
  searchTokens_next self req st w = (res, st', w') ->
  match res with
  | inr (IterYield _) => exists page, st' = GenSuspended page /\ is_nullish page = false
  | _ =>
      st' = GenClosed /\
      searchTokens_next self req st' w' = (inr IterDone, GenClosed, w')
  end.
Proof.
  assert (Hbody : forall cur,
            searchTokens_body self req cur w = (res, st', w') ->
            match res with
            | inr (IterYield _) =>
                exists page, st' = GenSuspended page /\ is_nullish page = false
            | _ => st' = GenClosed /\
                   searchTokens_next self req st' w' = (inr IterDone, GenClosed, w')
            end).
  { intros cur. unfold searchTokens_body.
    destruct (postJson self _ _ w) as [[t | page] w0].
    - intros H. injection H as <- <- <-. split; reflexivity.
    - unfold js_member. destruct (is_nullish page) eqn:E.
      + intros H. injection H as <- <- <-. split; reflexivity.
      + intros H. injection H as <- <- <-. exists page. split; [reflexivity | exact E]. }
  destruct st as [| page |]; cbn [searchTokens_next].
  - apply Hbody.
  - destruct (js_member page "cursor") as [t | c].
    + intros H. injection H as <- <- <-. split; reflexivity.
    + destruct (negb (is_undefined (js_coalesce c JUndefined))); [apply Hbody |].
      intros H. injection H as <- <- <-. split; reflexivity.
  - intros H. injection H as <- <- <-. split; reflexivity.
Qed.

Section Consumption.

Variable self : Fetch.
Hypothesis no_request_interceptors : requestInterceptors self = [].
Hypothesis no_response_interceptors : responseInterceptors self = [].
Variable req : Props JsVal.

(** One [next()] from a reachable state: done without a request, or one
    request that fails, or one request that uses up one server answer and
    yields. *)
Lemma next_step (st : GenState) (w : World) :
  reachable st ->
  (searchTokens_next self req st w = (inr IterDone, GenClosed, w)) \/
  (exists t w',
     searchTokens_next self req st w = (inl t, GenClosed, w') /\
     List.length (calls w') = S (List.length (calls w))) \/
  (exists v st' w',
     searchTokens_next self req st w = (inr (IterYield v), st', w') /\
     reachable st' /\
     List.length (calls w') = S (List.length (calls w)) /\
     S (List.length (responses w')) = List.length (responses w)).
Proof.
  assert (Hbody : forall cur,
    (exists t w',
       searchTokens_body self req cur w = (inl t, GenClosed, w') /\
       List.length (calls w') = S (List.length (calls w))) \/
    (exists v st' w',
       searchTokens_body self req cur w = (inr (IterYield v), st', w') /\
       reachable st' /\
       List.length (calls w') = S (List.length (calls w)) /\
       S (List.length (responses w')) = List.length (responses w))).
  { intros cur. unfold searchTokens_body, postJson.
    rewrite (dispatch_fetch self no_request_interceptors no_response_interceptors).
    unfold fetchImpl.
    destruct (dispatch_call self _) as [u i]; cbn [input init].
    destruct (responses w) as [| [r | t] rest]; cbn [fst snd dispatch_outcome].
    - left. eexists _, _. split; [reflexivity |].
      cbn [calls]. rewrite length_app. cbn. lia.
    - destruct (resp_ok r).
      + unfold js_member. destruct (is_nullish (res_data (decode r))) eqn:E.
        * left. eexists _, _. split; [reflexivity |].
          cbn [calls]. rewrite length_app. cbn. lia.
        * right. eexists _, _, _. split; [reflexivity |].
          split; [exact E |]. cbn [calls responses]. rewrite length_app. cbn.
          split; lia.
      + left. eexists _, _. split; [reflexivity |].
        cbn [calls]. rewrite length_app. cbn. lia.
    - left. eexists _, _. split; [reflexivity |].
      cbn [calls]. rewrite length_app. cbn. lia. }
  intros Hst. destruct st as [| page |]; cbn [searchTokens_next].
  - right. apply Hbody.
  - cbn in Hst. unfold js_member. rewrite Hst.
    destruct (negb (is_undefined (js_coalesce (js_get page "cursor") JUndefined)));
      [right; apply Hbody | left; reflexivity].
  - left. reflexivity.
Qed.

Lemma for_await_ends (fuel : nat) :
  forall (st : GenState) (seen : list JsVal) (w : World),
    reachable st ->
    (List.length (responses w) < fuel)%nat ->
    exists run fresh,
      for_await fuel self req st seen w = Some run /\
      batches run = (seen ++ fresh)%list /\
      (List.length fresh <= List.length (responses w))%nat /\
      List.length (calls (final run)) =
        (List.length (calls w) + List.length fresh
         + match failure run with Some _ => 1 | None => 0 end)%nat.
Proof.
  induction fuel as [| fuel IH]; intros st seen w Hst Hfuel; [lia |].
  cbn [for_await].
  destruct (next_step st w Hst)
    as [Hdone | [(t & w' & Hthrow & Hcalls) | (v & st' & w' & Hyield & Hst' & Hcalls & Hresp)]].
  - rewrite Hdone. eexists _, []. split; [reflexivity |].
    cbn. rewrite app_nil_r. repeat split; lia.
  - rewrite Hthrow. eexists _, []. split; [reflexivity |].
    cbn. rewrite app_nil_r. repeat split; lia.
  - rewrite Hyield.
    destruct (IH st' (seen ++ [v])%list w' Hst' ltac:(lia))
      as (run & fresh & Hrun & Hb & Hlen & Hc).
    exists run, (v :: fresh). split; [exact Hrun |].
    rewrite Hb, <- app_assoc. cbn [app List.length].
    repeat split; lia.
Qed.

End Consumption.

(** X11. Against any finite supply of server answers the consumption of
    [searchTokens] ends: one more [next()] than there are answers is always
    enough.  It never yields more batches than answers were supplied, and it
    makes exactly one request per yielded batch, plus one for the step that
    failed if it ended in failure: nothing is fetched ahead. *)
Theorem searchTokens_always_ends_one_request_per_batch
    (config : HyperstreamClientConfig) (self : Fetch) (req : Props JsVal)
    (w : World) (fuel : nat) :
  HyperstreamClient_constructor config = inr self ->
  (List.length (responses w) < fuel)%nat ->
  exists run,
    searchTokens fuel self req w = Some run /\
    (List.length (batches run) <= List.length (responses w))%nat /\
    List.length (calls (final run)) =
      (List.length (calls w) + List.length (batches run)
       + match failure run with Some _ => 1 | None => 0 end)%nat.
Proof.
  intros Hc Hfuel.
  destruct (constructor_inv config self Hc) as (_ & Hri & Hro & _).
  destruct (for_await_ends self Hri Hro req fuel GenStart [] w I Hfuel)
    as (run & fresh & Hrun & Hb & Hlen & Hcalls).
  exists run. cbn [app] in Hb. rewrite Hb.
  split; [exact Hrun |]. split; assumption.
Qed.

Lemma removelast_cons_length {A : Type} (l : list A) (a : A) :
  List.length (removelast (a :: l)) = List.length l.
Proof.
  revert a. induction l as [| b l IH]; intros a; [reflexivity |].
  rewrite removelast_cons2. cbn [List.length]. rewrite IH. reflexivity.
Qed.

(** X12. A 2xx answer whose body is [null] or is not JSON makes the
    sequence fail with a [TypeError], which is not a [HyperstreamApiError]:
    the batches of the pages before it were yielded, and its own request is
    the last one made. *)
Theorem searchTokens_type_error_on_bodiless_page
    (config : HyperstreamClientConfig) (self : Fetch) (req : Props JsVal)
    (pages : list Response) (bad : Response)
    (rest : list FetchOutcome) (w : World) (fuel : nat) :
  HyperstreamClient_constructor config = inr self ->
  forallb is_page pages = true ->
  forallb bears_cursor pages = true ->
  resp_ok bad = true ->
  is_nullish (page_of bad) = true ->
  responses w = (map Resolve pages ++ Resolve bad :: rest)%list ->
  (List.length pages + 1 <= fuel)%nat ->
  exists m run,
    searchTokens fuel self req w = Some run /\
    batches run = map batch_of pages /\
    failure run = Some (ThrowOther (FailError "TypeError" m)) /\
    responses (final run) = rest /\
    List.length (calls (final run)) = (List.length (calls w) + List.length pages + 1)%nat.
Proof.
  intros Hc Hp Hb Hok Hnull Hw Hfuel.
  destruct (constructor_inv config self Hc) as (_ & Hri & Hro & _).
  replace fuel with (List.length pages + S (fuel - List.length pages - 1))%nat by lia.
  unfold searchTokens.
  destruct (for_await_pages self Hri Hro req pages
              (S (fuel - List.length pages - 1)) GenStart _ [] w _
              (start_resumes self req) Hp Hb Hw) as (st' & Hst' & ->).
  cbn [for_await]. rewrite Hst'.
  unfold searchTokens_body, postJson.
  erewrite (dispatch_resolve self Hri Hro _ _ bad rest) by reflexivity.
  cbn [dispatch_outcome]. rewrite Hok. fold (page_of bad).
  unfold js_member. rewrite Hnull.
  eexists _, _. split; [reflexivity |].
  cbn [batches failure final responses calls app].
  repeat split.
  rewrite !length_app, length_map, removelast_cons_length, length_map.
  cbn [List.length]. lia.
Qed.

(** ** The first request of a search *)

Lemma wire_absent (props : Props JsVal) (k : string) :
  ~ In k (map fst props) -> js_get (json_value (JObj props)) k = JUndefined.
Proof.
  induction props as [| [k0 x] rest IH]; intros Hk; [reflexivity |].
  assert (Hne : String.eqb k0 k = false).
  { apply String.eqb_neq. intros ->. apply Hk. left. reflexivity. }
  assert (Hrest : ~ In k (map fst rest)) by (intros H; apply Hk; right; exact H).
  specialize (IH Hrest).
  destruct x; cbn; cbn in IH; rewrite ?Hne; exact IH.
Qed.

Lemma wire_undefined (props : Props JsVal) (k : string) :
  NoDup (map fst props) ->
  js_get (json_value (JObj (obj_set props k JUndefined))) k = JUndefined.
Proof.
  induction props as [| [k0 x] rest IH]; intros Hnd; [reflexivity |].
  inversion Hnd as [| ? ? Hk0 Hrest]; subst.
  cbn [obj_set]. destruct (String.eqb k0 k) eqn:E.
  - apply String.eqb_eq in E. subst k0.
    pose proof (wire_absent rest k Hk0) as H. cbn. cbn in H. exact H.
  - specialize (IH Hrest).
    destruct x; cbn; cbn in IH; rewrite ?E; exact IH.
Qed.

(** X13. The first request of [searchTokens] carries the caller's cursor
    when the request has one ([null] included); when it has none the body
    that goes out has no [cursor] field at all. *)
Theorem first_request_threads_initial_cursor
    (config : HyperstreamClientConfig) (self : Fetch) (req : Props JsVal) (w : World) :
  HyperstreamClient_constructor config = inr self ->
  exists call sent,
    calls (snd (searchTokens_next self req GenStart w)) = (calls w ++ [call])%list /\
    method (init call) = Some "POST" /\
    body (init call) = Some sent /\
    (forall c, obj_get req "cursor" = Some c -> c <> JUndefined ->
               js_get sent "cursor" = json_value c) /\
    (obj_get req "cursor" = None -> js_get sent "cursor" = JUndefined).
Proof.
  intros Hc.
  destruct (constructor_inv config self Hc) as (_ & Hri & Hro & _).
  cbn [searchTokens_next].
  destruct (body_logs self req (js_get (JObj req) "cursor") w Hri Hro) as [Hlog _].
  eexists _, _. split; [exact Hlog |]. split; [reflexivity |]. split; [reflexivity |].
  cbn [js_get]. split.
  - intros c -> Hdef. apply wire_cursor, Hdef.
  - intros ->. apply wire_undefined, obj_spread_nodup. constructor.
Qed.

(** ** Identifiers in paths *)

Lemma list_ascii_app (a b : string) :
  list_ascii_of_string (a ++ b) = (list_ascii_of_string a ++ list_ascii_of_string b)%list.
Proof. induction a as [| c a IH]; [reflexivity |]. cbn. rewrite IH. reflexivity. Qed.

Lemma encoded_chars (s : string) (c : ascii) :
  In c (list_ascii_of_string (encodeURIComponent s)) -> uri_component_char c = true.
Proof.
  unfold encodeURIComponent.
  induction s as [| c0 s IH]; [intros [] |].
  cbn [encode_bytes]. rewrite list_ascii_app, in_app_iff.
  intros [H | H]; [| exact (IH H)].
  assert (Hall : forallb uri_component_char
                   (list_ascii_of_string
                      (if is_alpha c0 || is_digit c0 || mem_ascii c0 "-_.!~*'()"
                       then String c0 EmptyString
                       else percent_byte c0)) = true)
    by (destruct c0 as [[] [] [] [] [] [] [] []]; reflexivity).
  rewrite forallb_forall in Hall. apply Hall, H.
Qed.

Lemma uri_component_char_safe (c : ascii) :
  uri_component_char c = true -> c <> "/"%char /\ c <> "?"%char /\ c <> "#"%char.
Proof. repeat split; intros ->; discriminate. Qed.

Lemma lookup_logs (self : Fetch) (path : string) (w : World)
    (handler : Thrown -> M JsVal) :
  requestInterceptors self = [] ->
  responseInterceptors self = [] ->
  startsWith path "/" = true ->
  (forall t w', snd (handler t w') = w') ->
  exists call,
    calls (snd (try_catch (getJson self path) handler w)) = (calls w ++ [call])%list /\
    input call = fullUrl_of self path.
Proof.
  intros Hri Hro Hs Hh. unfold getJson.
  set (rc := {| rc_path := path; rc_method := Some "GET"; rc_body := JUndefined;
                rc_query := None; rc_headers := None |}).
  exists (dispatch_call self rc). split.
  - pose proof (dispatch_logs self Hri Hro rc w) as Hlog.
    unfold try_catch.
    destruct (dispatchRequest self rc w) as [[t | v] w']; cbn [snd] in *;
      [rewrite Hh |]; exact Hlog.
  - unfold dispatch_call, buildPathWithQuery; cbn [input rc rc_path rc_query].
    rewrite Hs. reflexivity.
Qed.

(** X14. An identifier handed to a lookup stays inside its own path
    segment: the URL requested is the base, the fixed route and one encoded
    segment, and that segment contains no [/], [?] or [#], whatever the
    identifier is. *)
Theorem identifiers_stay_in_their_segment
    (config : HyperstreamClientConfig) (self : Fetch)
    (chainId : Z) (s : string) (w : World) :
  HyperstreamClient_constructor config = inr self ->
  exists b segment status_call deposit_call token_call,
    baseURL self = Some b /\
    (forall c, In c (list_ascii_of_string segment) ->
       c <> "/"%char /\ c <> "?"%char /\ c <> "#"%char) /\
    calls (snd (getIntentStatus self s w)) = (calls w ++ [status_call])%list /\
    input status_call = b ++ "/v1/intent/" ++ segment /\
    calls (snd (getIntentByDeposit self chainId s w)) = (calls w ++ [deposit_call])%list /\
    input deposit_call =
      b ++ "/v1/intent/by-deposit/" ++ number_to_string chainId ++ "/" ++ segment /\
    calls (snd (getToken self chainId s w)) = (calls w ++ [token_call])%list /\
    (input token_call = b ++ "/v1/tokens/" ++ number_to_string chainId ++ "/" ++ segment \/
     input token_call =
       b ++ "/v1/tokens/" ++ number_to_string chainId ++ "/symbol/" ++ segment).
Proof.
  intros Hc.
  destruct (constructor_inv config self Hc) as (_ & Hri & Hro & _).
  destruct (base_not_empty config self Hc) as (b & Hb & _ & Hurl).
  destruct (lookup_logs self ("/v1/intent/" ++ encodeURIComponent s) w throw
              Hri Hro eq_refl (fun _ _ => eq_refl)) as (c1 & Hc1 & Hi1).
  destruct (lookup_logs self
              ("/v1/intent/by-deposit/" ++ number_to_string chainId ++ "/"
               ++ encodeURIComponent s) w
              (fun error =>
                 match error with
                 | ThrowApi e => if err_status e =? 404 then ret JNull else throw error
                 | _ => throw error
                 end)
              Hri Hro eq_refl) as (c2 & Hc2 & Hi2).
  { intros [e | f] w'; [destruct (err_status e =? 404) |]; reflexivity. }
  destruct (lookup_logs self
              (if isHexLike s
               then "/v1/tokens/" ++ number_to_string chainId ++ "/" ++ encodeURIComponent s
               else "/v1/tokens/" ++ number_to_string chainId ++ "/symbol/"
                    ++ encodeURIComponent s) w
              (fun error =>
                 match error with
                 | ThrowApi e =>
                     if (err_status e =? 404) || (err_status e =? 400) then ret JNull
                     else throw error
                 | _ => throw error
                 end)
              Hri Hro) as (c3 & Hc3 & Hi3).
  { destruct (isHexLike s); reflexivity. }
  { intros [e | f] w'; [destruct ((err_status e =? 404) || (err_status e =? 400)) |];
      reflexivity. }
  exists b, (encodeURIComponent s), c1, c2, c3.
  split; [exact Hb |]. split.
  { intros c Hin. apply uri_component_char_safe, (encoded_chars s), Hin. }
  split.
  { unfold getIntentStatus.
    assert (Hsame : forall m : M JsVal, snd (m w) = snd (try_catch m throw w)).
    { intros m. unfold try_catch, throw. destruct (m w) as [[t | v] w']; reflexivity. }
    rewrite Hsame. exact Hc1. }
  split; [rewrite Hi1; apply Hurl |].
  split; [exact Hc2 |].
  split; [rewrite Hi2; apply Hurl |].
  split; [exact Hc3 |].
  rewrite Hi3, Hurl. destruct (isHexLike s); [left | right]; reflexivity.
Qed.

Lemma hex_digit_kept (c : ascii) :
  is_hex_digit c = true ->
  is_alpha c || is_digit c || mem_ascii c "-_.!~*'()" = true.
Proof.
  destruct c as [[] [] [] [] [] [] [] []]; vm_compute; intros H;
    first [reflexivity | discriminate H].
Qed.

Lemma encode_kept (keep : ascii -> bool) (sub : ascii -> option string) (s : string) :
  forallb keep (list_ascii_of_string s) = true -> encode_bytes keep sub s = s.
Proof.
  induction s as [| c s IH]; [reflexivity |]. cbn.
  intros H. apply andb_true_iff in H as [Hc Hs].
  rewrite Hc, (IH Hs). reflexivity.
Qed.

(** X15. An address goes into the URL as it is: for an identifier of the
    hex pattern, [getToken] requests the base, [/v1/tokens/], the chain id
    and the identifier itself, unescaped. *)
Theorem getToken_sends_address_verbatim
    (config : HyperstreamClientConfig) (self : Fetch)
    (chainId : Z) (identifier : string) (w : World) :
  HyperstreamClient_constructor config = inr self ->
  HexPattern identifier ->
  exists b call,
    baseURL self = Some b /\
    calls (snd (getToken self chainId identifier w)) = (calls w ++ [call])%list /\
    input call = b ++ "/v1/tokens/" ++ number_to_string chainId ++ "/" ++ identifier.
Proof.
  intros Hc Hhex.
  destruct (constructor_inv config self Hc) as (_ & Hri & Hro & _).
  destruct (base_not_empty config self Hc) as (b & Hb & _ & Hurl).
  assert (Henc : encodeURIComponent identifier = identifier).
  { destruct Hhex as (digits & -> & _ & Hall).
    apply encode_kept. cbn. apply forallb_forall.
    intros c Hin. apply hex_digit_kept, is_hex_digit_spec, Hall, Hin. }
  apply isHexLike_spec in Hhex.
  unfold getToken. rewrite Hhex, Henc.
  destruct (lookup_logs self
              ("/v1/tokens/" ++ number_to_string chainId ++ "/" ++ identifier) w
              (fun error =>
                 match error with
                 | ThrowApi e =>
                     if (err_status e =? 404) || (err_status e =? 400) then ret JNull
                     else throw error
                 | _ => throw error
                 end)
              Hri Hro eq_refl) as (call & Hcall & Hin).
  { intros [e | f] w'; [destruct ((err_status e =? 404) || (err_status e =? 400)) |];
      reflexivity. }
  exists b, call. split; [exact Hb |]. split; [exact Hcall |].
  rewrite Hin. apply Hurl.
Qed.

(** ** The normalised base, once more *)

Lemma strip_fixed (t : string) : ~ ends_with_slash t -> strip_trailing_slashes t = t.
Proof.
  induction t as [| c rest IH]; intros Hend; [reflexivity |].
  cbn [strip_trailing_slashes].
  destruct rest as [| c' rest'].
  - cbn. destruct (Ascii.eqb c slash) eqn:E; [| reflexivity].
    apply Ascii.eqb_eq in E. subst c. exfalso. apply Hend. exists "". reflexivity.
  - rewrite IH; [reflexivity |].
    intros [p Hp]. apply Hend. exists (String c p). cbn. rewrite Hp. reflexivity.
Qed.

(** X16. Normalising the base address is idempotent: a client configured
    with the base address another client ended up with uses that same base
    address, whatever the other settings. *)
Theorem normalised_base_is_stable
    (config : HyperstreamClientConfig) (self : Fetch) (b : string)
    (hs : option (Props string)) (ua : option string) :
  HyperstreamClient_constructor config = inr self ->
  baseURL self = Some b ->
  exists self',
    HyperstreamClient_constructor (mkConfig b hs ua) = inr self' /\
    baseURL self' = Some b.
Proof.
  intros Hc Hb.
  destruct (constructor_inv config self Hc) as (Hne & _ & _ & Hbase).
  rewrite Hbase in Hb. injection Hb as Hb.
  assert (Hb_ne : b <> "").
  { subst b. destruct (String.eqb _ "") eqn:E; [exact Hne | apply String.eqb_neq, E]. }
  destruct (constructor_total (mkConfig b hs ua) Hb_ne) as [self' Hc'].
  exists self'. split; [exact Hc' |].
  destruct (constructor_inv _ self' Hc') as (_ & _ & _ & Hbase').
  rewrite Hbase'. cbn [baseUrl]. f_equal.
  destruct (String.eqb (strip_trailing_slashes (baseUrl config)) "") eqn:E.
  - subst b. rewrite E. reflexivity.
  - assert (Hfix : strip_trailing_slashes b = b).
    { subst b. apply strip_fixed. apply (strip_spec (baseUrl config)). }
    rewrite Hfix. apply String.eqb_neq in Hb_ne. rewrite Hb_ne. reflexivity.
Qed.

(** ** The verbs of Fetch *)

(** X17. The base [Fetch] class does no error handling of its own: a verb
    makes one call, to the base address followed by the given URL and with
    its own method, returns an answer outside 200-299 as a result whose
    [ok] is false instead of throwing, and lets a failure of the network
    call through as it was thrown. *)
Theorem fetch_verbs_return_status_and_rethrow
    (self : Fetch) (url : string) (payload : JsVal) (options : option RequestInit)
    (w : World) (o : FetchOutcome) (rest : list FetchOutcome) :
  requestInterceptors self = [] ->
  responseInterceptors self = [] ->
  responses w = o :: rest ->
  let answer := match o with
                | Resolve r => inr (decode r)
                | Reject t => inl t
                end in
  one_call self url "GET" w answer rest (get self url options w) /\
  one_call self url "POST" w answer rest (post self url payload options w) /\
  one_call self url "PUT" w answer rest (put self url payload options w) /\
  one_call self url "DELETE" w answer rest (delete self url options w).
Proof.
  intros Hri Hro Hw answer.
  assert (Hreq : forall verb options',
            method options' = Some verb ->
            one_call self url verb w answer rest (request self url options' w)).
  { intros verb options' Hm. unfold one_call. rewrite (request_fetch self Hri Hro).
    unfold fetchImpl. rewrite Hw.
    destruct o as [r | t]; cbn [fst snd responses calls];
      (split; [reflexivity |]); (split; [reflexivity |]);
      eexists; (split; [reflexivity |]); (split; [reflexivity | exact Hm]). }
  unfold get, post, put, delete.
  split; [| split; [| split]]; apply Hreq; reflexivity.
Qed.

(** ** What every page request carries *)

Lemma wire_get (props : Props JsVal) (k : string) :
  NoDup (map fst props) ->
  js_get (json_value (JObj props)) k =
  match obj_get props k with
  | Some JUndefined | None => JUndefined
  | Some x => json_value x
  end.
Proof.
  induction props as [| [k0 x] rest IH]; intros Hnd; [reflexivity |].
  inversion Hnd as [| ? ? Hk0 Hrest]; subst.
  specialize (IH Hrest). cbn [obj_get].
  destruct (String.eqb k0 k) eqn:E.
  - apply String.eqb_eq in E. subst k0.
    pose proof (wire_absent rest k Hk0) as Ha.
    destruct x; cbn; cbn in Ha; rewrite ?String.eqb_refl; try reflexivity; exact Ha.
  - destruct x; cbn; cbn in IH; rewrite ?E; exact IH.
Qed.

(** X18. Every page request repeats the caller's request: apart from
    [cursor], each field of the body that goes out is the caller's field,
    whichever cursor the loop is at. *)
Theorem page_requests_repeat_the_filters
    (config : HyperstreamClientConfig) (self : Fetch) (req : Props JsVal)
    (cursor : JsVal) (w : World) :
  HyperstreamClient_constructor config = inr self ->
  NoDup (map fst req) ->
  exists call sent,
    calls (snd (searchTokens_body self req cursor w)) = (calls w ++ [call])%list /\
    input call = fullUrl_of self "/v1/tokens/search" /\
    body (init call) = Some sent /\
    forall k, k <> "cursor" ->
      js_get sent k = js_get (json_value (JObj req)) k.
Proof.
  intros Hc Hnd.
  destruct (constructor_inv config self Hc) as (_ & Hri & Hro & _).
  destruct (body_logs self req cursor w Hri Hro) as [Hlog _].
  exists (dispatch_call self (search_config req cursor)).
  exists (json_value (JObj (obj_set (obj_spread [] req) "cursor" cursor))).
  split; [exact Hlog |]. split; [reflexivity |]. split; [reflexivity |].
  intros k Hk.
  rewrite (wire_get req k Hnd).
  rewrite wire_get by (apply obj_set_nodup, obj_spread_nodup; constructor).
  rewrite obj_get_set_other by (apply not_eq_sym, Hk).
  rewrite (obj_get_spread_nil req k Hnd). reflexivity.
Qed.

(** ** Construction and lookups at the edges *)


(** X20. A failure of the network call is never read as absence: when the
    call throws anything but a [HyperstreamApiError], both lookups throw the
    normalised error, with status 0, instead of returning [null]. *)
Theorem lookups_do_not_mask_transport_failures
    (config : HyperstreamClientConfig) (self : Fetch) (chainId : Z) (s : string)
    (w : World) (f : Failure) (rest : list FetchOutcome) :
  HyperstreamClient_constructor config = inr self ->
  responses w = Reject (ThrowOther f) :: rest ->
  let e := normalizeTransportError (ThrowOther f) in
  err_status e = 0 /\
  fst (getToken self chainId s w) = inl (ThrowApi e) /\
  fst (getIntentByDeposit self chainId s w) = inl (ThrowApi e).
Proof.
  intros Hc Hw e.
  destruct (constructor_inv config self Hc) as (_ & Hri & Hro & _).
  split; [reflexivity |].
  unfold getToken, getIntentByDeposit, try_catch, getJson.
  rewrite !(dispatch_reject self Hri Hro _ w _ rest Hw).
  split; reflexivity.
Qed.

(** X21. The sequence is pulled, never pushed: one [next()] on a generator
    in a reachable state makes at most one request.  It makes none when it
    reports the end, and exactly one when it yields a batch or throws; a
    yield uses up exactly one server answer. *)
Theorem next_makes_at_most_one_request
    (config : HyperstreamClientConfig) (self : Fetch) (req : Props JsVal)
    (st : GenState) (w : World) :
  HyperstreamClient_constructor config = inr self ->
  reachable st ->
  (searchTokens_next self req st w = (inr IterDone, GenClosed, w)) \/
  (exists t w',
     searchTokens_next self req st w = (inl t, GenClosed, w') /\
     List.length (calls w') = S (List.length (calls w))) \/
  (exists v st' w',
     searchTokens_next self req st w = (inr (IterYield v), st', w') /\
     reachable st' /\
     List.length (calls w') = S (List.length (calls w)) /\
     S (List.length (responses w')) = List.length (responses w)).
Proof.
  intros Hc Hst.
  destruct (constructor_inv config self Hc) as (_ & Hri & Hro & _).
  apply next_step; assumption.
Qed.

(** ** Worked instances of the further properties *)

Lemma request_interceptor_failure_skips_fetch_witness :
  dispatchRequest (addRequestInterceptor test_client failing_interceptor) get_chains
    (mkWorld [Resolve accepted] []) =
  (inl (ThrowApi (normalizeTransportError (ThrowOther (FailError "Error" "offline")))),
   mkWorld [Resolve accepted] []).
Proof.
  apply (request_interceptor_failure_skips_fetch
           (addRequestInterceptor test_client failing_interceptor) get_chains
           (mkWorld [Resolve accepted] [])).
  reflexivity.
Defined.

Lemma interceptors_frame_the_fetch_witness :
  fst (dispatchRequest intercepted_client get_chains (mkWorld [Resolve server_error] []))
  = inr (JObj [("message", JStr "Boom"); ("code", JStr "ServerError")]) /\
  map input (calls (snd (dispatchRequest intercepted_client get_chains
                           (mkWorld [Resolve server_error] []))))
  = ["https://api.test.hyperstream.xyz/v1/chains?trace=1"].
Proof.
  rewrite (interceptors_frame_the_fetch intercepted_client get_chains
             (mkWorld [Resolve server_error] []) _ server_error [] eq_refl eq_refl).
  split; reflexivity.
Defined.

Lemma lookups_never_throw_absence_statuses_witness :
  fst (getToken test_client 1 "USDC" (mkWorld [Resolve server_error] []))
    = inl (ThrowApi (api_error_of_result (decode server_error))) /\
  err_status (api_error_of_result (decode server_error)) <> 404 /\
  err_status (api_error_of_result (decode server_error)) <> 400.
Proof.
  split; [reflexivity |].
  apply (lookups_never_throw_absence_statuses test_client 1 "USDC"
           (mkWorld [Resolve server_error] [])).
  reflexivity.
Defined.

Lemma success_returns_decoded_body_witness :
  fst (getChains test_client (mkWorld [Resolve accepted] []))
  = inr (JObj [("status", JStr "accepted")]).
Proof.
  destruct (success_returns_decoded_body test_config test_client get_chains 1 "x"
              JUndefined (mkWorld [Resolve accepted] []) accepted []
              eq_refl eq_refl eq_refl) as (_ & _ & H & _).
  exact H.
Defined.

Lemma other_operations_throw_on_every_non_2xx_witness :
  fst (getIntentStatus test_client "0xdeadbeef" (mkWorld [Resolve not_found] []))
  = inl (ThrowApi (api_error_of_result (decode not_found))).
Proof.
  destruct (other_operations_throw_on_every_non_2xx test_config test_client
              "0xdeadbeef" JUndefined (mkWorld [Resolve not_found] []) not_found []
              eq_refl eq_refl eq_refl) as (_ & _ & H & _).
  exact H.
Defined.

Lemma non_2xx_error_details_and_request_id_witness :
  exists e,
    fst (dispatchRequest test_client get_chains (mkWorld [Resolve server_error] []))
      = inl (ThrowApi e) /\
    err_details e = DetailsValue (payload_of server_error) /\
    err_requestId e = None.
Proof.
  destruct (non_2xx_error_details_and_request_id test_config test_client get_chains
              (mkWorld [Resolve server_error] []) server_error []
              eq_refl eq_refl eq_refl) as (e & He & _ & Hd & _ & Hr).
  exists e. split; [exact He |]. split; [apply Hd; reflexivity | exact Hr].
Defined.

Lemma sent_headers_precedence_witness :
  exists call sent,
    calls (snd (dispatchRequest branded_client get_chains (mkWorld [] [])))
      = ([] ++ [call])%list /\
    init_headers (init call) = Some sent /\
    obj_get sent "Accept" = Some "application/json".
Proof.
  destruct (sent_headers_precedence branded_config branded_client get_chains
              (mkWorld [] []) eq_refl) as (call & sent & Hc & Hs & _ & Ha & _).
  - constructor.
  - exists call, sent. split; [exact Hc |]. split; [exact Hs |].
    apply Ha. reflexivity.
Defined.

Lemma user_agent_overrides_configured_header_witness :
  obj_get (headers branded_client) "User-Agent" = Some "hyperstream-sdk/1.0".
Proof.
  destruct (user_agent_overrides_configured_header branded_config branded_client
              eq_refl) as (H & _).
  - cbn. repeat constructor; cbn; intuition discriminate.
  - apply H; [reflexivity | discriminate].
Defined.

Lemma generator_closes_for_good_witness :
  GenClosed = GenClosed /\
  searchTokens_next test_client search_request GenClosed (mkWorld [] [])
  = (inr IterDone, GenClosed, mkWorld [] []).
Proof.
  exact (generator_closes_for_good test_client search_request
           (GenSuspended (page_of last_page)) (mkWorld [] [])
           (inr IterDone) GenClosed (mkWorld [] []) eq_refl).
Defined.

Lemma searchTokens_always_ends_one_request_per_batch_witness :
  exists run,
    searchTokens 3 test_client search_request
      (mkWorld [Resolve first_page; Resolve last_page] []) = Some run /\
    (List.length (batches run) <= 2)%nat /\
    List.length (calls (final run)) =
      (0 + List.length (batches run)
       + match failure run with Some _ => 1 | None => 0 end)%nat.
Proof.
  apply (searchTokens_always_ends_one_request_per_batch test_config test_client
           search_request (mkWorld [Resolve first_page; Resolve last_page] []) 3).
  - reflexivity.
  - cbn. lia.
Defined.

Lemma searchTokens_type_error_on_bodiless_page_witness :
  exists m run,
    searchTokens 2 test_client search_request
      (mkWorld [Resolve first_page; Resolve null_body_page] []) = Some run /\
    batches run = map batch_of [first_page] /\
    failure run = Some (ThrowOther (FailError "TypeError" m)) /\
    responses (final run) = [] /\
    List.length (calls (final run)) = (0 + 1 + 1)%nat.
Proof.
  apply (searchTokens_type_error_on_bodiless_page test_config test_client search_request
           [first_page] null_body_page []
           (mkWorld [Resolve first_page; Resolve null_body_page] []) 2).
  - reflexivity.
  - reflexivity.
  - reflexivity.
  - reflexivity.
  - reflexivity.
  - reflexivity.
  - cbn. lia.
Defined.

Lemma first_request_threads_initial_cursor_witness :
  exists call sent,
    calls (snd (searchTokens_next test_client (("cursor", JNum 150) :: search_request)
                  GenStart (mkWorld [] []))) = ([] ++ [call])%list /\
    body (init call) = Some sent /\
    js_get sent "cursor" = JNum 150.
Proof.
  destruct (first_request_threads_initial_cursor test_config test_client
              (("cursor", JNum 150) :: search_request) (mkWorld [] []) eq_refl)
    as (call & sent & Hc & _ & Hb & Hcur & _).
  exists call, sent. split; [exact Hc |]. split; [exact Hb |].
  apply (Hcur (JNum 150)); [reflexivity | discriminate].
Defined.

Lemma identifiers_stay_in_their_segment_witness :
  exists b segment call,
    baseURL test_client = Some b /\
    calls (snd (getIntentStatus test_client "a/../b?x#y" (mkWorld [] [])))
      = ([] ++ [call])%list /\
    input call = b ++ "/v1/intent/" ++ segment /\
    forall c, In c (list_ascii_of_string segment) -> c <> "/"%char.
Proof.
  destruct (identifiers_stay_in_their_segment test_config test_client 1 "a/../b?x#y"
              (mkWorld [] []) eq_refl)
    as (b & segment & c1 & _ & _ & Hb & Hseg & Hc1 & Hi1 & _).
  exists b, segment, c1. split; [exact Hb |]. split; [exact Hc1 |].
  split; [exact Hi1 |]. intros c Hin. apply (Hseg c Hin).
Defined.

Lemma getToken_sends_address_verbatim_witness :
  exists b call,
    baseURL test_client = Some b /\
    calls (snd (getToken test_client 42161 "0xAb12" (mkWorld [] [])))
      = ([] ++ [call])%list /\
    input call = b ++ "/v1/tokens/" ++ number_to_string 42161 ++ "/" ++ "0xAb12".
Proof.
  apply (getToken_sends_address_verbatim test_config test_client 42161 "0xAb12"
           (mkWorld [] [])).
  - reflexivity.
  - exists "Ab12". split; [reflexivity |]. split; [discriminate |].
    intros c Hin. cbn in Hin. cbn. intuition.
Defined.

Lemma normalised_base_is_stable_witness :
  exists self',
    HyperstreamClient_constructor
      (mkConfig "https://api.test.hyperstream.xyz" None (Some "agent")) = inr self' /\
    baseURL self' = Some "https://api.test.hyperstream.xyz".
Proof.
  apply (normalised_base_is_stable
           (mkConfig "https://api.test.hyperstream.xyz//" None None) test_client).
  - reflexivity.
  - reflexivity.
Defined.

Lemma fetch_verbs_return_status_and_rethrow_witness :
  one_call test_client "/v1/orders" "PUT" (mkWorld [Resolve server_error] [])
    (inr (decode server_error)) []
    (put test_client "/v1/orders" JNull None (mkWorld [Resolve server_error] [])).
Proof.
  destruct (fetch_verbs_return_status_and_rethrow test_client "/v1/orders" JNull None
              (mkWorld [Resolve server_error] []) (Resolve server_error) []
              eq_refl eq_refl eq_refl) as (_ & _ & H & _).
  exact H.
Defined.

Lemma page_requests_repeat_the_filters_witness :
  exists call sent,
    calls (snd (searchTokens_body test_client search_request (JNum 99) (mkWorld [] [])))
      = ([] ++ [call])%list /\
    body (init call) = Some sent /\
    js_get sent "q" = JStr "USDC".
Proof.
  destruct (page_requests_repeat_the_filters test_config test_client search_request
              (JNum 99) (mkWorld [] []) eq_refl)
    as (call & sent & Hc & _ & Hb & Hk).
  - cbn. repeat constructor; cbn; intuition discriminate.
  - exists call, sent. split; [exact Hc |]. split; [exact Hb |].
    rewrite Hk by discriminate. reflexivity.
Defined.


Lemma lookups_do_not_mask_transport_failures_witness :
  fst (getToken test_client 1 "USDC" (mkWorld [Reject connection_refused] []))
  = inl (ThrowApi (normalizeTransportError connection_refused)).
Proof.
  destruct (lookups_do_not_mask_transport_failures test_config test_client 1 "USDC"
              (mkWorld [Reject connection_refused] []) (FailError "TypeError" "fetch failed")
              [] eq_refl eq_refl) as (_ & H & _).
  exact H.
Defined.

Lemma next_makes_at_most_one_request_witness :
  (searchTokens_next test_client search_request (GenSuspended (page_of last_page))
     (mkWorld [Resolve first_page] [])
   = (inr IterDone, GenClosed, mkWorld [Resolve first_page] [])) \/
  (exists t w',
     searchTokens_next test_client search_request (GenSuspended (page_of last_page))
       (mkWorld [Resolve first_page] []) = (inl t, GenClosed, w') /\
     List.length (calls w') = 1%nat) \/
  (exists v st' w',
     searchTokens_next test_client search_request (GenSuspended (page_of last_page))
       (mkWorld [Resolve first_page] []) = (inr (IterYield v), st', w') /\
     reachable st' /\
     List.length (calls w') = 1%nat /\
     S (List.length (responses w')) = 1%nat).
Proof.
  apply (next_makes_at_most_one_request test_config test_client search_request
           (GenSuspended (page_of last_page)) (mkWorld [Resolve first_page] [])).
  - reflexivity.
  - reflexivity.
Defined.
